(** * TradeSentient front end: the live feed hook and the stats derivation

    A shallow embedding of the [App] component (the [stats] memo and the
    subscription effect) and of the [useWebSocket] hook it imports from
    [./hooks/useWebSocket] (the socket life cycle, keepalive, reconnection
    and the bounded message window), with the properties the specification
    states about them.

    JavaScript numbers are IEEE 754 binary64 values; they are modelled by
    Rocq's primitive floats, which compute with the same rounding. *)

From Stdlib Require Import PrimFloat Uint63 ZArith Ascii String.
From stdpp Require Import base option list strings gmap.

#[local] Set Warnings "-inexact-float,-clear-no-such-hyp".
#[local] Open Scope string_scope.
#[local] Open Scope list_scope.

(** ** Numbers *)

Abbreviation number := float (only parsing).

(** [ToBoolean] on a Number: [+0], [-0] and [NaN] are falsy. *)
Definition truthy_number (x : number) : bool :=
  negb (PrimFloat.eqb x 0%float || PrimFloat.is_nan x).

(** [ToBoolean] on a value that is a Number or [null]. *)
Definition truthy (v : option number) : bool :=
  match v with
  | Some x => truthy_number x
  | None => false
  end.

(** [ToNumber] on a value that is a Number or [null]. *)
Definition to_number (v : option number) : number :=
  match v with
  | Some x => x
  | None => 0%float
  end.

(** The Number of an array length. *)
Definition number_of_nat (n : nat) : number :=
  PrimFloat.of_uint63 (Uint63.of_Z (Z.of_nat n)).

(** ** Messages

    The objects of the feed, with the fields the code reads:
    [m.type], [m.symbol], [m.price], [m.score].  A field that an event kind
    does not carry is never read for that kind. *)

Record message := Message {
  type : string;
  symbol : string;
  price : number;
  score : number;
}.

Definition Market (sym : string) (p : number) : message :=
  {| type := "market"; symbol := sym; price := p; score := 0%float |}.

Definition Sentiment (sc : number) : message :=
  {| type := "sentiment"; symbol := ""; price := 0%float; score := sc |}.

Definition Signal (sym : string) (p : number) : message :=
  {| type := "signal"; symbol := sym; price := p; score := 0%float |}.

(** ** App.stats *)

Record DerivedStats := {
  latestPrice : option number;
  priceChange : number;
  avgSentiment : number;
  totalSignals : nat;
  totalDataPoints : nat;
  currency : string;
}.

(** [m => m.type === 'market' && m.symbol === selectedSymbol] *)
Definition is_market_of (selectedSymbol : string) (m : message) : bool :=
  String.eqb (type m) "market" && String.eqb (symbol m) selectedSymbol.

(** [m => m.type === 'sentiment'] *)
Definition is_sentiment (m : message) : bool := String.eqb (type m) "sentiment".

(** [m => m.type === 'signal'] *)
Definition is_signal (m : message) : bool := String.eqb (type m) "signal".

(** [arr.length > k ? arr[arr.length - k - 1].price : null] *)
Definition price_from_end (k : nat) (arr : list message) : option number :=
  if bool_decide (k < length arr)
  then price <$> arr !! (length arr - S k)
  else None.

(** [latestPrice && prevPrice ? ((latestPrice - prevPrice) / prevPrice * 100) : 0] *)
Definition price_change (latest prev : option number) : number :=
  if truthy latest && truthy prev
  then ((to_number latest - to_number prev) / to_number prev * 100)%float
  else 0%float.

(** [arr.reduce((sum, m) => sum + m.score, 0)] *)
Definition sum_scores (arr : list message) : number :=
  fold_left (fun sum m => (sum + score m)%float) arr 0%float.

Definition avg_sentiment (sentimentMsgs : list message) : number :=
  if bool_decide (0 < length sentimentMsgs)
  then (sum_scores sentimentMsgs / number_of_nat (length sentimentMsgs))%float
  else 0%float.

Definition stats (messages : list message) (selectedSymbol currentCurrency : string)
  : DerivedStats :=
  let marketMsgs := List.filter (is_market_of selectedSymbol) messages in
  let sentimentMsgs := List.filter is_sentiment messages in
  let signalMsgs := List.filter is_signal messages in
  let latest := price_from_end 0 marketMsgs in
  let prev := price_from_end 1 marketMsgs in
  {| latestPrice := latest;
     priceChange := price_change latest prev;
     avgSentiment := avg_sentiment sentimentMsgs;
     totalSignals := length signalMsgs;
     totalDataPoints := length marketMsgs;
     currency := currentCurrency |}.

(** ** Exceptions and state

    Handlers and memo bodies run to completion on one thread; each is a
    computation over a store that either completes or throws. *)

Inductive exn := SyntaxError | TypeError | InvalidStateError.

Inductive result (S A : Type) :=
  | Ok (a : A) (s : S)
  | Raise (e : exn) (s : S).
Arguments Ok {S A} a s.
Arguments Raise {S A} e s.

Definition M (S A : Type) : Type := S -> result S A.

Definition ret {S A} (a : A) : M S A := fun s => Ok a s.

Definition bind {S A B} (m : M S A) (k : A -> M S B) : M S B :=
  fun s => match m s with
           | Ok a s' => k a s'
           | Raise e s' => Raise e s'
           end.

Definition raise {S A} (e : exn) : M S A := fun s => Raise e s.

(** [try { body } catch (e) { handler }] *)
Definition try_catch {S A} (body : M S A) (handler : exn -> M S A) : M S A :=
  fun s => match body s with
           | Ok a s' => Ok a s'
           | Raise e s' => handler e s'
           end.

Definition get {S} : M S S := fun s => Ok s s.

Definition modify {S} (f : S -> S) : M S unit := fun s => Ok tt (f s).

Notation "'do' x <- m ; k" := (bind m (fun x => k))
  (at level 10, x name, m at level 100, k at level 200, only parsing).

(** The final store of a computation, whether it completed or threw. *)
Definition store_of {S A} (r : result S A) : S :=
  match r with
  | Ok _ s => s
  | Raise _ s => s
  end.

(** ** The stats memo over array objects

    [Array.prototype.filter] allocates a new array and [reduce] and indexing
    only read, so the memo body is run here over a heap of array objects
    (addressed in allocation order) in which [messages] is one object. *)

Abbreviation heap := (list (list message)) (only parsing).

Definition array_at (hp : heap) (a : nat) : list message := default [] (hp !! a).

(** [arr.filter(f)]: a fresh array; [arr] itself is left as it is. *)
Definition Array_filter (f : message -> bool) (arr : nat) : M heap nat :=
  fun hp => Ok (length hp) (hp ++ [List.filter f (array_at hp arr)]).

(** [arr.length] *)
Definition Array_length (arr : nat) : M heap nat :=
  fun hp => Ok (length (array_at hp arr)) hp.

(** [arr[i].price]: reading a property of [undefined] throws. *)
Definition Array_price_at (arr i : nat) : M heap number :=
  fun hp => match array_at hp arr !! i with
            | Some m => Ok (price m) hp
            | None => Raise TypeError hp
            end.

(** [arr.reduce((sum, m) => sum + m.score, 0)] *)
Definition Array_reduce_scores (arr : nat) : M heap number :=
  fun hp => Ok (sum_scores (array_at hp arr)) hp.

(** [arr.length > k ? arr[arr.length - k - 1].price : null] *)
Definition Array_price_from_end (k arr : nat) : M heap (option number) :=
  do n <- Array_length arr;
  if bool_decide (k < n)
  then do p <- Array_price_at arr (n - S k); ret (Some p)
  else ret None.

(** The body of [useMemo(() => { ... }, [messages, selectedSymbol, currentCurrency])]. *)
Definition stats_memo (messages : nat) (selectedSymbol currentCurrency : string)
  : M heap DerivedStats :=
  do marketMsgs <- Array_filter (is_market_of selectedSymbol) messages;
  do sentimentMsgs <- Array_filter is_sentiment messages;
  do signalMsgs <- Array_filter is_signal messages;
  do latest <- Array_price_from_end 0 marketMsgs;
  do prev <- Array_price_from_end 1 marketMsgs;
  do n <- Array_length sentimentMsgs;
  do avg <- (if bool_decide (0 < n)
             then do sum <- Array_reduce_scores sentimentMsgs;
                  ret (sum / number_of_nat n)%float
             else ret 0%float);
  do totalSignals <- Array_length signalMsgs;
  do totalDataPoints <- Array_length marketMsgs;
  ret {| latestPrice := latest;
         priceChange := price_change latest prev;
         avgSentiment := avg;
         totalSignals := totalSignals;
         totalDataPoints := totalDataPoints;
         currency := currentCurrency |}.

(** ** What the specification says the stats are *)

(** The Market events of the active symbol, in arrival order. *)
Definition matching_market (window : list message) (activeSymbol : string) : list message :=
  List.filter (is_market_of activeSymbol) window.

(** As the specification words it: the relative change between the two most
    recent matching Market events, and 0 when there are fewer than two. *)
Definition spec_priceChange (window : list message) (activeSymbol : string) : number :=
  match reverse (matching_market window activeSymbol) with
  | latest :: previous :: _ =>
      ((price latest - price previous) / price previous * 100)%float
  | _ => 0%float
  end.

(** The same with the guard of the code: the quotient is taken only when
    both prices are truthy (neither zero nor NaN). *)
Definition guarded_priceChange (window : list message) (activeSymbol : string) : number :=
  match reverse (matching_market window activeSymbol) with
  | latest :: previous :: _ =>
      if truthy_number (price latest) && truthy_number (price previous)
      then ((price latest - price previous) / price previous * 100)%float
      else 0%float
  | _ => 0%float
  end.

(** The scores of all Sentiment events of the window, whatever their symbol. *)
Definition sentiment_scores (window : list message) : list number :=
  map score (List.filter is_sentiment window).

(** The arithmetic mean in binary64: the sum in arrival order, starting from
    0, divided by the count. *)
Definition arithmetic_mean (xs : list number) : number :=
  (fold_left PrimFloat.add xs 0 / number_of_nat (length xs))%float.

Definition spec_avgSentiment (window : list message) : number :=
  match sentiment_scores window with
  | [] => 0%float
  | xs => arithmetic_mean xs
  end.

(** ** The message window *)

(** [arr.slice(-n)]: the last [n] elements, all of them when there are fewer. *)
Definition slice_from_end {A} (n : nat) (arr : list A) : list A :=
  drop (length arr - n) arr.

(** The updater [prev => [...prev.slice(-500), message]]. *)
Definition push_message (message0 : message) (prev : list message) : list message :=
  slice_from_end 500 prev ++ [message0].

(** The window after a sequence of appends, oldest first. *)
Definition appends (events : list message) (window : list message) : list message :=
  fold_left (fun prev m => push_message m prev) events window.

(** The most recent [n] of a sequence of events. *)
Definition most_recent {A} (n : nat) (events : list A) : list A :=
  drop (length events - n) events.

(** ** JSON.stringify of a subscription request *)

Definition dquote : ascii := ascii_of_nat 34.

Definition hex_digit (n : nat) : ascii :=
  nth n (list_ascii_of_string "0123456789abcdef") "0"%char.

(** QuoteJSONString on one character. *)
Definition json_escape (c : ascii) : string :=
  match nat_of_ascii c with
  | 8 => "\b"
  | 9 => "\t"
  | 10 => "\n"
  | 12 => "\f"
  | 13 => "\r"
  | 34 => String "\"%char (String dquote "")
  | 92 => "\\"
  | n => if bool_decide (n < 32)
         then "\u00" +:+ String (hex_digit (n / 16)) (String (hex_digit (n mod 16)) "")
         else String c ""
  end.

Fixpoint json_escape_string (s : string) : string :=
  match s with
  | EmptyString => ""
  | String c s' => json_escape c +:+ json_escape_string s'
  end.

(** [JSON.stringify(s)] for a string [s]. *)
Definition JSON_stringify_string (s : string) : string :=
  String dquote (json_escape_string s +:+ String dquote "").

(** [JSON.stringify({ action: 'subscribe_add', symbol: symbol })] *)
Definition subscribe_add_frame (symbol0 : string) : string :=
  "{" +:+ JSON_stringify_string "action" +:+ ":" +:+ JSON_stringify_string "subscribe_add"
      +:+ "," +:+ JSON_stringify_string "symbol" +:+ ":" +:+ JSON_stringify_string symbol0
      +:+ "}".

(** Writes a frame with ['] standing for the double quote. *)
Fixpoint wire (s : string) : string :=
  match s with
  | EmptyString => ""
  | String c s' => String (if Ascii.eqb c "'"%char then dquote else c) (wire s')
  end.

(** ** useWebSocket: the store *)

Inductive ReadyState := CONNECTING | OPEN | CLOSING | CLOSED.

#[global] Instance ReadyState_eq_dec : EqDecision ReadyState.
Proof. solve_decision. Defined.

(** An armed timer: [setInterval(ping, ms)] or [setTimeout(connect, ms)]; the
    hook arms no other. *)
Inductive timer := Interval (ms : Z) | Timeout (ms : Z).

(** What a handler does to the outside, in the order it does it. *)
Inductive effect :=
  | NewWebSocket (h : nat)
  | SocketSend (h : nat) (data : string)
  | SocketClose (h : nat)
  | SetInterval (id : nat) (ms : Z)
  | ClearInterval (id : option nat)
  | SetTimeout (id : nat) (ms : Z)
  | ClearTimeout (id : option nat)
  | ConsoleLog (text : string)
  | ConsoleError (text : string).

(** The refs and state of the hook, the [selectedSymbol] state of [App], and
    the part of the runtime they act on: the sockets constructed so far
    (a handle is an index) and the armed timers. *)
Record state := State {
  sockets : list ReadyState;
  ws : option nat;
  pingInterval : option nat;
  reconnectTimeout : option nat;
  timers : gmap nat timer;
  nextTimer : nat;
  messages : list message;
  isConnected : bool;
  selectedSymbol : string;
  mounted : bool;
  trace : list effect;
}.

Definition set_sockets (v : list ReadyState) (st : state) : state :=
  State v (ws st) (pingInterval st) (reconnectTimeout st) (timers st) (nextTimer st)
        (messages st) (isConnected st) (selectedSymbol st) (mounted st) (trace st).
Definition set_ws (v : option nat) (st : state) : state :=
  State (sockets st) v (pingInterval st) (reconnectTimeout st) (timers st) (nextTimer st)
        (messages st) (isConnected st) (selectedSymbol st) (mounted st) (trace st).
Definition set_pingInterval (v : option nat) (st : state) : state :=
  State (sockets st) (ws st) v (reconnectTimeout st) (timers st) (nextTimer st)
        (messages st) (isConnected st) (selectedSymbol st) (mounted st) (trace st).
Definition set_reconnectTimeout (v : option nat) (st : state) : state :=
  State (sockets st) (ws st) (pingInterval st) v (timers st) (nextTimer st)
        (messages st) (isConnected st) (selectedSymbol st) (mounted st) (trace st).
Definition set_timers (v : gmap nat timer) (st : state) : state :=
  State (sockets st) (ws st) (pingInterval st) (reconnectTimeout st) v (nextTimer st)
        (messages st) (isConnected st) (selectedSymbol st) (mounted st) (trace st).
Definition set_nextTimer (v : nat) (st : state) : state :=
  State (sockets st) (ws st) (pingInterval st) (reconnectTimeout st) (timers st) v
        (messages st) (isConnected st) (selectedSymbol st) (mounted st) (trace st).
Definition set_messages (v : list message) (st : state) : state :=
  State (sockets st) (ws st) (pingInterval st) (reconnectTimeout st) (timers st) (nextTimer st)
        v (isConnected st) (selectedSymbol st) (mounted st) (trace st).
Definition set_isConnected (v : bool) (st : state) : state :=
  State (sockets st) (ws st) (pingInterval st) (reconnectTimeout st) (timers st) (nextTimer st)
        (messages st) v (selectedSymbol st) (mounted st) (trace st).
Definition set_selectedSymbol (v : string) (st : state) : state :=
  State (sockets st) (ws st) (pingInterval st) (reconnectTimeout st) (timers st) (nextTimer st)
        (messages st) (isConnected st) v (mounted st) (trace st).
Definition set_mounted (v : bool) (st : state) : state :=
  State (sockets st) (ws st) (pingInterval st) (reconnectTimeout st) (timers st) (nextTimer st)
        (messages st) (isConnected st) (selectedSymbol st) v (trace st).
Definition set_trace (v : list effect) (st : state) : state :=
  State (sockets st) (ws st) (pingInterval st) (reconnectTimeout st) (timers st) (nextTimer st)
        (messages st) (isConnected st) (selectedSymbol st) (mounted st) v.

(** What [JSON.parse] returns for a frame: [null], or a value whose properties
    can be read.  A value without the fields of the feed (a number, say) reads
    as an object of a type that no filter matches. *)
Inductive json_value := JsonNull | JsonObject (m : message).

(** ** The runtime *)

Definition emit (e : effect) : M state unit :=
  modify (fun st => set_trace (trace st ++ [e]) st).

Definition console_log (text : string) : M state unit := emit (ConsoleLog text).
Definition console_error (text : string) : M state unit := emit (ConsoleError text).

(** [socket.send(data)]: throws while the socket is still connecting, hands
    the frame to an open socket, and drops it once the socket is closing or
    closed. *)
Definition WebSocket_send (h : nat) (data : string) : M state unit :=
  fun st => match sockets st !! h with
            | Some CONNECTING => Raise InvalidStateError st
            | Some OPEN => emit (SocketSend h data) st
            | _ => Ok tt st
            end.

(** [socket.close()]: starts the closing handshake of a socket that is not
    yet closing or closed; the close event comes later. *)
Definition WebSocket_close (h : nat) : M state unit :=
  do _ <- emit (SocketClose h);
  modify (fun st => match sockets st !! h with
                    | Some CONNECTING | Some OPEN => set_sockets (<[h := CLOSING]> (sockets st)) st
                    | _ => st
                    end).

Definition arm (t : timer) : M state nat :=
  fun st => let id := nextTimer st in
            Ok id (set_nextTimer (S id) (set_timers (<[id := t]> (timers st)) st)).

Definition setInterval (ms : Z) : M state nat :=
  do id <- arm (Interval ms); do _ <- emit (SetInterval id ms); ret id.

Definition setTimeout (ms : Z) : M state nat :=
  do id <- arm (Timeout ms); do _ <- emit (SetTimeout id ms); ret id.

(** Timer ids share one pool; clearing [null] or a timer that is gone does
    nothing. *)
Definition disarmed (id : option nat) (armed : gmap nat timer) : gmap nat timer :=
  match id with
  | Some i => delete i armed
  | None => armed
  end.

Definition disarm (id : option nat) : M state unit :=
  modify (fun st => set_timers (disarmed id (timers st)) st).

Definition clearInterval (id : option nat) : M state unit :=
  do _ <- emit (ClearInterval id); disarm id.

Definition clearTimeout (id : option nat) : M state unit :=
  do _ <- emit (ClearTimeout id); disarm id.

(** React drops state updates of an unmounted component. *)
Definition setIsConnected (b : bool) : M state unit :=
  modify (fun st => if mounted st then set_isConnected b st else st).

Definition setMessages (f : list message -> list message) : M state unit :=
  modify (fun st => if mounted st then set_messages (f (messages st)) st else st).

(** [ws.current?.readyState === WebSocket.OPEN] *)
Definition current_open (st : state) : option nat :=
  match ws st with
  | Some h => match sockets st !! h with
              | Some OPEN => Some h
              | _ => None
              end
  | None => None
  end.

(** ** The events of the page

    Everything runs as callbacks of one event loop: socket events, timer
    firings, the user picking a symbol, and the unmount of the component. *)

Inductive event :=
  | SocketOpened (h : nat)
  | SocketMessage (h : nat) (data : string)
  | SocketError (h : nat)
  | SocketClosed (h : nat)
  | TimerFired (id : nat)
  | SelectSymbol (s : string)
  | Unmount.

(** The connection state of the specification, read off the socket the hook
    currently refers to. *)
Inductive ConnectionState := Disconnected | Connecting | Connected.

Definition connectionState (st : state) : ConnectionState :=
  match ws st with
  | Some h => match sockets st !! h with
              | Some CONNECTING => Connecting
              | Some OPEN => Connected
              | _ => Disconnected
              end
  | None => Disconnected
  end.

Definition is_live (rs : ReadyState) : bool :=
  match rs with
  | CLOSED => false
  | _ => true
  end.

(** The number of socket handles that are not closed. *)
Definition live_sockets (st : state) : nat := length (List.filter is_live (sockets st)).

(** The frames handed to sockets, oldest first. *)
Definition sent (tr : list effect) : list (nat * string) :=
  omap (fun e => match e with
                 | SocketSend h data => Some (h, data)
                 | _ => None
                 end) tr.

(** What a step added to the trace. *)
Definition new_effects (st st' : state) : list effect := drop (length (trace st)) (trace st').

(** The state of the first render: [useState([])], [useState(false)],
    [useRef(null)] three times, [useState('BTC')]. *)
Definition initial : state :=
  {| sockets := []; ws := None; pingInterval := None; reconnectTimeout := None;
     timers := ∅; nextTimer := 0; messages := []; isConnected := false;
     selectedSymbol := "BTC"; mounted := true; trace := [] |}.

(** ** A small runtime to run the hook on

    An URL the socket constructor accepts, and a parser that knows a few
    frames of the feed. *)

Definition demo_url : string := "ws://localhost:8000/ws".

Definition demo_rejects (u : string) : bool := negb (String.prefix "ws" u).

Definition demo_parse (data : string) : option json_value :=
  if bool_decide (data = "null") then Some JsonNull
  else if bool_decide (data = wire "{'type':'subscribed','symbol':'BTC'}")
  then Some (JsonObject {| type := "subscribed"; symbol := "BTC"; price := 0; score := 0 |})
  else if bool_decide (data = wire "{'type':'market','symbol':'BTC','price':100}")
  then Some (JsonObject (Market "BTC" 100))
  else None.

(** ** Invariants of the reachable states *)

(** Every socket but the one the hook refers to is closed. *)
Definition only_current_live (st : state) : Prop :=
  forall h rs, sockets st !! h = Some rs -> rs <> CLOSED -> ws st = Some h.

(** A reconnect is pending only while every socket is closed, and the ref
    holds its id. *)
Definition timeout_when_closed (st : state) : Prop :=
  forall id ms, timers st !! id = Some (Timeout ms) ->
    reconnectTimeout st = Some id /\ ms = 3000%Z /\
    forall h rs, sockets st !! h = Some rs -> rs = CLOSED.

(** A keepalive interval is armed only while the current socket is open, and
    the ref holds its id. *)
Definition interval_when_open (st : state) : Prop :=
  forall id ms, timers st !! id = Some (Interval ms) ->
    pingInterval st = Some id /\ ms = 25000%Z /\ is_Some (current_open st).

(** While the current socket is open its keepalive interval is armed. *)
Definition open_has_interval (st : state) : Prop :=
  forall h, current_open st = Some h ->
    exists id, pingInterval st = Some id /\ timers st !! id = Some (Interval 25000).

(** While the component is mounted, [isConnected] tells whether the current
    socket is open. *)
Definition flag_matches (st : state) : Prop :=
  mounted st = true -> (isConnected st = true <-> is_Some (current_open st)).

Definition wf (st : state) : Prop :=
  only_current_live st /\ timeout_when_closed st /\ interval_when_open st /\
  open_has_interval st /\ flag_matches st.

(** Two states that differ at most in the window, the selected symbol, the
    timer counter and the trace. *)
Definition same_core (st st' : state) : Prop :=
  sockets st' = sockets st /\ ws st' = ws st /\ pingInterval st' = pingInterval st /\
  reconnectTimeout st' = reconnectTimeout st /\ timers st' = timers st /\
  isConnected st' = isConnected st /\ mounted st' = mounted st.

(** The page is mounted and offline: no socket is open. *)
Definition offline (st : state) : Prop :=
  wf st /\ mounted st = true /\ isConnected st = false /\
  forall h, sockets st !! h <> Some OPEN.

(** An event during which the page stays offline and mounted. *)
Definition offline_event (ev : event) : bool :=
  match ev with
  | SocketOpened _ | Unmount => false
  | _ => true
  end.

Definition keeps_symbol (ev : event) : bool :=
  match ev with
  | SelectSymbol _ => false
  | _ => true
  end.

(** ** useWebSocket and App: the handlers *)

(** The hook's argument, and the two things of the runtime it relies on:
    whether [new WebSocket(url)] throws, and [JSON.parse] ([None] when it
    throws a SyntaxError). *)
Class Runtime := {
  url : string;
  WebSocket_rejects : string -> bool;
  JSON_parse : string -> option json_value;
}.

Section UseWebSocket.

Context `{Runtime}.

(** [new WebSocket(url)] *)
Definition new_WebSocket : M state nat :=
  if WebSocket_rejects url
  then raise SyntaxError
  else
    do st <- get;
    let h := length (sockets st) in
    do _ <- modify (set_sockets (sockets st ++ [CONNECTING]));
    do _ <- emit (NewWebSocket h);
    ret h.

(** The callback of the keepalive interval. *)
Definition ping : M state unit :=
  do st <- get;
  match current_open st with
  | Some h => WebSocket_send h "ping"
  | None => ret tt
  end.

Definition onopen : M state unit :=
  do _ <- console_log "✓ WebSocket connected";
  do _ <- setIsConnected true;
  do id <- setInterval 25000%Z;
  modify (set_pingInterval (Some id)).

Definition onmessage (data : string) : M state unit :=
  if bool_decide (data = "pong") then ret tt
  else
    try_catch
      (do parsed <- (fun st => match JSON_parse data with
                               | Some v => Ok v st
                               | None => Raise SyntaxError st
                               end);
       match parsed with
       | JsonNull => raise TypeError
       | JsonObject message0 =>
           if bool_decide (type message0 = "subscribed") then ret tt
           else setMessages (push_message message0)
       end)
      (fun e => console_error "Error parsing message:").

Definition onerror : M state unit := console_error "WebSocket error:".

Definition onclose : M state unit :=
  do _ <- console_log "WebSocket disconnected, reconnecting in 3s...";
  do _ <- setIsConnected false;
  do st <- get;
  do _ <- clearInterval (pingInterval st);
  do id <- setTimeout 3000%Z;
  modify (set_reconnectTimeout (Some id)).

(** The four handlers are installed on every socket [connect] constructs. *)
Definition connect : M state unit :=
  try_catch
    (do h <- new_WebSocket;
     modify (set_ws (Some h)))
    (fun e =>
       do _ <- console_error "WebSocket connection failed:";
       do id <- setTimeout 3000%Z;
       modify (set_reconnectTimeout (Some id))).

Definition subscribe (symbol0 : string) : M state unit :=
  do st <- get;
  match current_open st with
  | Some h => WebSocket_send h (subscribe_add_frame symbol0)
  | None => ret tt
  end.

(** The cleanup of the mount effect. *)
Definition cleanup : M state unit :=
  do st <- get;
  do _ <- clearInterval (pingInterval st);
  do _ <- clearTimeout (reconnectTimeout st);
  match ws st with
  | Some h => WebSocket_close h
  | None => ret tt
  end.

(** The subscription effect of [App], with dependencies
    [[isConnected, selectedSymbol, subscribe]]: it runs after a render in
    which [isConnected] or [selectedSymbol] differs from the render before
    ([subscribe] never changes). *)
Definition subscription_effect (prev : state) : M state unit :=
  do st <- get;
  if mounted st
     && (negb (Bool.eqb (isConnected prev) (isConnected st))
         || negb (String.eqb (selectedSymbol prev) (selectedSymbol st)))
  then
    if isConnected st && negb (String.eqb (selectedSymbol st) "")
    then subscribe (selectedSymbol st)
    else ret tt
  else ret tt.

(** The callback an event runs, when the event can occur: a socket opens
    from CONNECTING, delivers messages while OPEN, closes once; a timer
    fires while armed, a timeout only once; the page is used while mounted. *)
Definition dispatch (ev : event) (st : state) : option (result state unit) :=
  match ev with
  | SocketOpened h =>
      match sockets st !! h with
      | Some CONNECTING => Some (onopen (set_sockets (<[h := OPEN]> (sockets st)) st))
      | _ => None
      end
  | SocketMessage h data =>
      match sockets st !! h with
      | Some OPEN => Some (onmessage data st)
      | _ => None
      end
  | SocketError h =>
      match sockets st !! h with
      | Some _ => Some (onerror st)
      | None => None
      end
  | SocketClosed h =>
      match sockets st !! h with
      | Some CLOSED | None => None
      | Some _ => Some (onclose (set_sockets (<[h := CLOSED]> (sockets st)) st))
      end
  | TimerFired id =>
      match timers st !! id with
      | Some (Interval _) => Some (ping st)
      | Some (Timeout _) => Some (connect (set_timers (delete id (timers st)) st))
      | None => None
      end
  | SelectSymbol s =>
      if mounted st then Some (Ok tt (set_selectedSymbol s st)) else None
  | Unmount =>
      if mounted st then Some ((do _ <- cleanup; modify (set_mounted false)) st) else None
  end.

(** One turn of the event loop: the callback, then the render and the
    subscription effect. *)
Definition step (st : state) (ev : event) : option state :=
  match dispatch ev st with
  | Some (Ok _ st1) =>
      match subscription_effect st st1 with
      | Ok _ st2 => Some st2
      | Raise _ _ => None
      end
  | _ => None
  end.

Fixpoint run (st : state) (evs : list event) : option state :=
  match evs with
  | [] => Some st
  | ev :: evs' =>
      match step st ev with
      | Some st' => run st' evs'
      | None => None
      end
  end.

(** The mount effect calls [connect]; the subscription effect of the first
    render finds [isConnected] false. *)
Definition mount : result state unit := connect initial.

Inductive reachable : state -> Prop :=
  | reachable_mount st : mount = Ok tt st -> reachable st
  | reachable_step st ev st' : reachable st -> step st ev = Some st' -> reachable st'.

End UseWebSocket.

(** ** Running the hook on the small runtime *)

Definition demo_runtime : Runtime :=
  {| url := demo_url; WebSocket_rejects := demo_rejects; JSON_parse := demo_parse |}.

(** The page after the mount effect and the given events. *)
Definition demo_run (evs : list event) : option state :=
  match @connect demo_runtime initial with
  | Ok _ st0 => @run demo_runtime st0 evs
  | Raise _ _ => None
  end.

(** Mounted, the first socket still connecting. *)
Definition demo_connecting : state := default initial (demo_run []).

(** Connected, showing BTC. *)
Definition demo_connected : state := default initial (demo_run [SocketOpened 0]).

(** Connected, showing ETH. *)
Definition demo_eth : state :=
  default initial (demo_run [SocketOpened 0; SelectSymbol "ETH"]).

(** After the socket closed, SOL was picked offline, and a socket opened again. *)
Definition demo_replayed : state :=
  default initial
    (demo_run [SocketOpened 0; SelectSymbol "ETH"; SocketClosed 0; SelectSymbol "SOL";
               TimerFired 1; SocketOpened 1]).

(** After a reconnect, the component unmounts. *)
Definition demo_unmounted : state :=
  default initial
    (demo_run [SocketOpened 0; SelectSymbol "ETH"; SocketClosed 0; SelectSymbol "SOL";
               TimerFired 1; SocketOpened 1; Unmount]).


(** The socket that was constructed after the unmount has opened. *)
Definition demo_zombie : state :=
  default initial
    (demo_run [SocketOpened 0; SelectSymbol "ETH"; SocketClosed 0; SelectSymbol "SOL";
               TimerFired 1; SocketOpened 1; Unmount; SocketClosed 1; TimerFired 3;
               SocketOpened 2]).

(** The keepalive interval of that socket has fired. *)
Definition demo_zombie_pinged : state :=
  default initial
    (demo_run [SocketOpened 0; SelectSymbol "ETH"; SocketClosed 0; SelectSymbol "SOL";
               TimerFired 1; SocketOpened 1; Unmount; SocketClosed 1; TimerFired 3;
               SocketOpened 2; TimerFired 4]).

(** Connected, after a tick. *)
Definition demo_ticked : state :=
  default initial
    (demo_run [SocketOpened 0;
               SocketMessage 0 (wire "{'type':'market','symbol':'BTC','price':100}")]).

(** Connected, after a tick, a confirmation and a frame that does not parse. *)
Definition demo_fed : state :=
  default initial
    (demo_run [SocketOpened 0;
               SocketMessage 0 (wire "{'type':'market','symbol':'BTC','price':100}");
               SocketMessage 0 (wire "{'type':'subscribed','symbol':'BTC'}");
               SocketMessage 0 "not json"]).

(** Connected, after an error event of the socket. *)
Definition demo_errored : state :=
  default initial (demo_run [SocketOpened 0; SocketError 0]).

(** The socket has closed and the reconnect is pending. *)
Definition demo_offline : state :=
  default initial (demo_run [SocketOpened 0; SocketClosed 0]).

(** ** useWebSocket: the other subscription requests *)

(** [JSON.stringify(symbols)] for an array of strings. *)
Definition JSON_stringify_strings (symbols : list string) : string :=
  "[" +:+ String.concat "," (map JSON_stringify_string symbols) +:+ "]".

(** [JSON.stringify({ action: 'subscribe', symbols: symbols })] *)
Definition subscribe_frame (symbols : list string) : string :=
  "{" +:+ JSON_stringify_string "action" +:+ ":" +:+ JSON_stringify_string "subscribe"
      +:+ "," +:+ JSON_stringify_string "symbols" +:+ ":" +:+ JSON_stringify_strings symbols
      +:+ "}".

(** [JSON.stringify({ action: 'subscribe_all' })] *)
Definition subscribe_all_frame : string :=
  "{" +:+ JSON_stringify_string "action" +:+ ":" +:+ JSON_stringify_string "subscribe_all"
      +:+ "}".

Definition subscribeMany (symbols : list string) : M state unit :=
  do st <- get;
  match current_open st with
  | Some h => WebSocket_send h (subscribe_frame symbols)
  | None => ret tt
  end.

Definition subscribeAll : M state unit :=
  do st <- get;
  match current_open st with
  | Some h => WebSocket_send h subscribe_all_frame
  | None => ret tt
  end.

(** A reader of what QuoteJSONString writes, to tell that the writer loses
    nothing: it undoes the two-character escapes and the [\u00XX] ones and
    copies every other character. *)
Definition hex_value (c : ascii) : option nat :=
  let n := nat_of_ascii c in
  if bool_decide (48 <= n <= 57) then Some (n - 48)
  else if bool_decide (97 <= n <= 102) then Some (n - 87)
  else None.

Fixpoint json_unescape (s : string) : option string :=
  match s with
  | EmptyString => Some ""
  | String c r =>
      if Ascii.eqb c "\"%char then
        match r with
        | String d r' =>
            match nat_of_ascii d with
            | 98 => String (ascii_of_nat 8) <$> json_unescape r'
            | 116 => String (ascii_of_nat 9) <$> json_unescape r'
            | 110 => String (ascii_of_nat 10) <$> json_unescape r'
            | 102 => String (ascii_of_nat 12) <$> json_unescape r'
            | 114 => String (ascii_of_nat 13) <$> json_unescape r'
            | 34 => String dquote <$> json_unescape r'
            | 92 => String "\"%char <$> json_unescape r'
            | 117 =>
                match r' with
                | String _ (String _ (String x (String y r''))) =>
                    match hex_value x, hex_value y with
                    | Some hx, Some hy =>
                        String (ascii_of_nat (16 * hx + hy)) <$> json_unescape r''
                    | _, _ => None
                    end
                | _ => None
                end
            | _ => None
            end
        | EmptyString => None
        end
      else String c <$> json_unescape r
  end.

(** ** The socket URL *)

(** [import.meta.env.VITE_API_URL || 'http://localhost:8000'] *)
Definition API_BASE (VITE_API_URL : option string) : string :=
  match VITE_API_URL with
  | Some u => if String.eqb u "" then "http://localhost:8000" else u
  | None => "http://localhost:8000"
  end.

(** [API_BASE.replace(/^http/, 'ws')] *)
Definition WS_BASE (api_base : string) : string :=
  if String.prefix "http" api_base
  then "ws" +:+ String.substring 4 (String.length api_base - 4) api_base
  else api_base.

(** The argument [App] gives the hook. *)
Definition App_url (VITE_API_URL : option string) : string :=
  WS_BASE (API_BASE VITE_API_URL) +:+ "/ws".

(** ** The panels *)

Module SentimentFeed.

(** [data.filter(msg => msg.type === 'sentiment').slice(-15).reverse()] *)
Definition filteredData (data : list message) : list message :=
  reverse (slice_from_end 15 (List.filter is_sentiment data)).

End SentimentFeed.

Module SignalPanel.

(** [data.filter(msg => msg.type === 'signal').slice(-10).reverse()] *)
Definition signals (data : list message) : list message :=
  reverse (slice_from_end 10 (List.filter is_signal data)).

End SignalPanel.

Module MarketChart.

(** [{ ...msg, timestamp: ..., price: Number(msg.price) }]: a Number is its
    own Number, and the formatted time is not among the fields modelled. *)
Definition point (msg : message) : message :=
  {| type := type msg; symbol := symbol msg; price := price msg; score := score msg |}.

(** [data.filter(msg => msg.type === 'market' && msg.symbol === symbol)
         .map(...).slice(-50)] *)
Definition filteredData (data : list message) (symbol0 : string) : list message :=
  slice_from_end 50 (map point (List.filter (is_market_of symbol0) data)).

End MarketChart.

Module StatsBar.

Inductive tone := positive | negative | neutral.

(** A piece of text of the bar: a literal, or a number formatted by
    [toLocaleString] or [toFixed] between a prefix and a suffix. *)
Inductive text :=
  | Literal (s : string)
  | LocaleString (x : number)
  | Fixed (prefix : string) (x : number) (digits : nat) (suffix : string).

(** [priceChange > 0 ? 'positive' : priceChange < 0 ? 'negative' : 'neutral'] *)
Definition changeClass (priceChange0 : number) : tone :=
  if (0 <? priceChange0)%float then positive
  else if (priceChange0 <? 0)%float then negative
  else neutral.

(** [priceChange > 0 ? '+' : ''] *)
Definition changeSign (priceChange0 : number) : string :=
  if (0 <? priceChange0)%float then "+" else "".

(** [avgSentiment > 0.1 ? 'positive' : avgSentiment < -0.1 ? 'negative' : 'neutral'] *)
Definition sentimentClass (avgSentiment0 : number) : tone :=
  if (0.1 <? avgSentiment0)%float then positive
  else if (avgSentiment0 <? -0.1)%float then negative
  else neutral.

(** [avgSentiment > 0.1 ? 'Bullish' : avgSentiment < -0.1 ? 'Bearish' : 'Neutral'] *)
Definition sentimentLabel (avgSentiment0 : number) : string :=
  if (0.1 <? avgSentiment0)%float then "Bullish"
  else if (avgSentiment0 <? -0.1)%float then "Bearish"
  else "Neutral".

(** The number after the currency symbol, or the dash:
    [latestPrice !== null ? `${cs}${Number(latestPrice).toLocaleString()}` : dash] *)
Definition priceValue (s : DerivedStats) : text :=
  match latestPrice s with
  | Some p => LocaleString p
  | None => Literal "—"
  end.

(** [latestPrice !== null ? `${changeSign}${priceChange.toFixed(3)}%` : 'Waiting...'] *)
Definition changeText (s : DerivedStats) : text :=
  match latestPrice s with
  | Some _ => Fixed (changeSign (priceChange s)) (priceChange s) 3 "%"
  | None => Literal "Waiting..."
  end.

(** [avgSentiment !== 0 ? avgSentiment.toFixed(2) : dash] *)
Definition sentimentValue (s : DerivedStats) : text :=
  if negb (PrimFloat.eqb (avgSentiment s) 0%float)
  then Fixed "" (avgSentiment s) 2 ""
  else Literal "—".

End StatsBar.

(** ** App: the catalogue and the category tabs *)

Record asset := { asset_symbol : string; asset_name : string }.

(** An entry of the catalogue; [assets] and [currency] may be missing. *)
Record category := {
  label : string;
  assets : option (list asset);
  category_currency : option string;
}.

Definition CATEGORY_ORDER : list string := ["crypto"; "us_stock"; "in_stock"].

(** The catalogue [App] falls back to when the fetch fails. *)
Definition fallback_tickers : gmap string category :=
  list_to_map
    [("crypto",
      {| label := "Crypto";
         assets := Some [ {| asset_symbol := "BTC"; asset_name := "Bitcoin" |};
                          {| asset_symbol := "ETH"; asset_name := "Ethereum" |};
                          {| asset_symbol := "SOL"; asset_name := "Solana" |};
                          {| asset_symbol := "ADA"; asset_name := "Cardano" |};
                          {| asset_symbol := "XRP"; asset_name := "Ripple" |};
                          {| asset_symbol := "DOGE"; asset_name := "Dogecoin" |};
                          {| asset_symbol := "MATIC"; asset_name := "Polygon" |} ];
         category_currency := None |});
     ("us_stock",
      {| label := "US Stocks";
         assets := Some [ {| asset_symbol := "AAPL"; asset_name := "Apple" |};
                          {| asset_symbol := "GOOGL"; asset_name := "Alphabet" |};
                          {| asset_symbol := "TSLA"; asset_name := "Tesla" |};
                          {| asset_symbol := "MSFT"; asset_name := "Microsoft" |};
                          {| asset_symbol := "AMZN"; asset_name := "Amazon" |};
                          {| asset_symbol := "NFLX"; asset_name := "Netflix" |} ];
         category_currency := None |});
     ("in_stock",
      {| label := "Indian Stocks";
         assets := Some [ {| asset_symbol := "RELIANCE"; asset_name := "Reliance" |};
                          {| asset_symbol := "TCS"; asset_name := "TCS" |};
                          {| asset_symbol := "INFY"; asset_name := "Infosys" |};
                          {| asset_symbol := "HDFCBANK"; asset_name := "HDFC Bank" |} ];
         category_currency := None |})].

(** The state of [App] around the hook: [tickers] ([None] until the fetch
    settles) and [selectedCategory], which is only ever one of the tabs of
    [CATEGORY_ORDER]. *)
Record app := {
  hook : state;
  tickers : option (gmap string category);
  selectedCategory : string;
}.

(** [tickers[cat]] when [tickers] is set. *)
Definition category_of (a : app) (cat : string) : option category :=
  match tickers a with
  | Some t => t !! cat
  | None => None
  end.

(** [if (!tickers || !tickers[selectedCategory]) return [];
     return tickers[selectedCategory].assets || []] *)
Definition currentAssets (a : app) : list asset :=
  match category_of a (selectedCategory a) with
  | Some c => default [] (assets c)
  | None => []
  end.

(** [if (!tickers || !tickers[selectedCategory]) return 'USD';
     return tickers[selectedCategory].currency || 'USD'] *)
Definition currentCurrency (a : app) : string :=
  match category_of a (selectedCategory a) with
  | Some c => match category_currency c with
              | Some cur => if String.eqb cur "" then "USD" else cur
              | None => "USD"
              end
  | None => "USD"
  end.

(** The [stats] memo of [App]. *)
Definition App_stats (a : app) : DerivedStats :=
  stats (messages (hook a)) (selectedSymbol (hook a)) (currentCurrency a).

(** [tickers[cat].assets[0].symbol] when
    [tickers && tickers[cat]?.assets?.length > 0]. *)
Definition first_symbol (a : app) (cat : string) : option string :=
  match category_of a cat with
  | Some c => match assets c with
              | Some (x :: _) => Some (asset_symbol x)
              | _ => None
              end
  | None => None
  end.

Section App.

Context `{Runtime}.

(** A click on a category tab: [setSelectedCategory(cat)], then
    [setSelectedSymbol] of the first asset of the category when it has one,
    and the render with its effects. *)
Definition handleCategoryChange (cat : string) (a : app) : option app :=
  if mounted (hook a) then
    match first_symbol a cat with
    | Some s =>
        match step (hook a) (SelectSymbol s) with
        | Some st' => Some {| hook := st'; tickers := tickers a; selectedCategory := cat |}
        | None => None
        end
    | None => Some {| hook := hook a; tickers := tickers a; selectedCategory := cat |}
    end
  else None.

End App.

(** The page of the small runtime once the fetch has failed and the socket
    has opened. *)
Definition demo_app : app :=
  {| hook := demo_connected; tickers := Some fallback_tickers; selectedCategory := "crypto" |}.

(** That page after a click on the US stocks tab. *)
Definition demo_app_stocks : app :=
  {| hook := default initial (demo_run [SocketOpened 0; SelectSymbol "AAPL"]);
     tickers := Some fallback_tickers; selectedCategory := "us_stock" |}.

(** ** A further invariant *)

(** While the page is mounted a connection is live or a reconnect is pending. *)
Definition retry_pending (st : state) : Prop :=
  mounted st = true ->
  (exists h rs, sockets st !! h = Some rs /\ rs <> CLOSED) \/
  (exists id, timers st !! id = Some (Timeout 3000)).

(** * Properties of the hook *)

Section UseWebSocketProperties.

Context `{Runtime}.

(** *** How the handlers act *)

Ltac hook_unfold :=
  unfold step, dispatch, subscription_effect, subscribe, ping, onopen, onmessage,
    onerror, onclose, connect, cleanup, new_WebSocket, WebSocket_send, WebSocket_close,
    setInterval, setTimeout, arm, clearInterval, clearTimeout, disarm, setIsConnected,
    setMessages, console_log, console_error, emit, try_catch, bind, ret, raise, get,
    modify in *.

Lemma current_open_Some st h :
  current_open st = Some h <-> ws st = Some h /\ sockets st !! h = Some OPEN.
Proof.
  unfold current_open. destruct (ws st) as [h0|]; [|naive_solver].
  destruct (sockets st !! h0) as [[]|] eqn:E; naive_solver.
Qed.

Lemma current_open_same_core st st' :
  same_core st st' -> current_open st' = current_open st.
Proof. intros (Hs & Hw & _). unfold current_open. by rewrite Hs, Hw. Qed.

Lemma wf_same_core st st' : same_core st st' -> wf st -> wf st'.
Proof.
  intros Hc (H1 & H2 & H3 & H4 & H5).
  pose proof (current_open_same_core _ _ Hc) as Hco.
  destruct Hc as (Hs & Hw & Hp & Hr & Ht & Hi & Hm).
  unfold wf, only_current_live, timeout_when_closed, interval_when_open,
    open_has_interval, flag_matches in *.
  rewrite Hs, Hw, Hp, Hr, Ht, Hi, Hm, Hco. done.
Qed.

(** A send on the current open socket emits the frame. *)
Lemma send_current_open st h data :
  current_open st = Some h ->
  WebSocket_send h data st = Ok tt (set_trace (trace st ++ [SocketSend h data]) st).
Proof.
  intros [_ Ho]%current_open_Some. unfold WebSocket_send. rewrite Ho. done.
Qed.

Lemma ping_run st :
  ping st = Ok tt (match current_open st with
                   | Some h => set_trace (trace st ++ [SocketSend h "ping"]) st
                   | None => st
                   end).
Proof.
  unfold ping, bind, get. destruct (current_open st) as [h|] eqn:E; [|done].
  by apply send_current_open.
Qed.

Lemma subscribe_run symbol0 st :
  subscribe symbol0 st =
  Ok tt (match current_open st with
         | Some h => set_trace (trace st ++ [SocketSend h (subscribe_add_frame symbol0)]) st
         | None => st
         end).
Proof.
  unfold subscribe, bind, get. destruct (current_open st) as [h|] eqn:E; [|done].
  by apply send_current_open.
Qed.

(** The subscription effect completes, and touches nothing but the trace. *)
Lemma subscription_effect_run prev st :
  exists tr, subscription_effect prev st = Ok tt (set_trace (trace st ++ tr) st) /\
    (tr = [] \/
     exists h, tr = [SocketSend h (subscribe_add_frame (selectedSymbol st))] /\
               current_open st = Some h /\ isConnected st = true /\ mounted st = true /\
               (isConnected prev = false \/ selectedSymbol prev <> selectedSymbol st)).
Proof.
  unfold subscription_effect, bind, get.
  assert (Hnil : set_trace (trace st ++ []) st = st).
  { rewrite app_nil_r. by destruct st. }
  destruct (mounted st) eqn:Hm; simpl; [|exists []; rewrite Hnil; auto].
  destruct (negb (Bool.eqb (isConnected prev) (isConnected st))
            || negb (String.eqb (selectedSymbol prev) (selectedSymbol st))) eqn:Hdeps;
    [|exists []; rewrite Hnil; auto].
  destruct (isConnected st) eqn:Hi; simpl; [|exists []; rewrite Hnil; auto].
  destruct (negb (String.eqb (selectedSymbol st) "")) eqn:Hs; [|exists []; rewrite Hnil; auto].
  rewrite subscribe_run.
  destruct (current_open st) as [h|] eqn:Ho; [|exists []; rewrite Hnil; auto].
  eexists. split; [reflexivity|]. right. exists h. repeat split; try done.
  destruct (isConnected prev); [right|by left].
  simpl in Hdeps. apply negb_true_iff, String.eqb_neq in Hdeps. done.
Qed.


Lemma onopen_run st :
  onopen st =
  Ok tt {| sockets := sockets st; ws := ws st;
           pingInterval := Some (nextTimer st);
           reconnectTimeout := reconnectTimeout st;
           timers := <[nextTimer st := Interval 25000]> (timers st);
           nextTimer := S (nextTimer st);
           messages := messages st;
           isConnected := if mounted st then true else isConnected st;
           selectedSymbol := selectedSymbol st; mounted := mounted st;
           trace := trace st ++ [ConsoleLog "✓ WebSocket connected";
                                 SetInterval (nextTimer st) 25000] |}.
Proof. hook_unfold. destruct st as [? ? ? ? ? ? ? ? ? [] ?]; simpl; by rewrite <- app_assoc. Qed.

Lemma onclose_run st :
  onclose st =
  Ok tt {| sockets := sockets st; ws := ws st;
           pingInterval := pingInterval st;
           reconnectTimeout := Some (nextTimer st);
           timers := <[nextTimer st := Timeout 3000]>
                       (disarmed (pingInterval st) (timers st));
           nextTimer := S (nextTimer st);
           messages := messages st;
           isConnected := if mounted st then false else isConnected st;
           selectedSymbol := selectedSymbol st; mounted := mounted st;
           trace := trace st ++ [ConsoleLog "WebSocket disconnected, reconnecting in 3s...";
                                 ClearInterval (pingInterval st);
                                 SetTimeout (nextTimer st) 3000] |}.
Proof.
  hook_unfold. destruct st as [? ? ? ? ? ? ? ? ? [] ?]; simpl; by rewrite <- !app_assoc.
Qed.

Lemma connect_run st :
  connect st =
  Ok tt (if WebSocket_rejects url
         then {| sockets := sockets st; ws := ws st;
                 pingInterval := pingInterval st;
                 reconnectTimeout := Some (nextTimer st);
                 timers := <[nextTimer st := Timeout 3000]> (timers st);
                 nextTimer := S (nextTimer st);
                 messages := messages st; isConnected := isConnected st;
                 selectedSymbol := selectedSymbol st; mounted := mounted st;
                 trace := trace st ++ [ConsoleError "WebSocket connection failed:";
                                       SetTimeout (nextTimer st) 3000] |}
         else {| sockets := sockets st ++ [CONNECTING]; ws := Some (length (sockets st));
                 pingInterval := pingInterval st;
                 reconnectTimeout := reconnectTimeout st;
                 timers := timers st; nextTimer := nextTimer st;
                 messages := messages st; isConnected := isConnected st;
                 selectedSymbol := selectedSymbol st; mounted := mounted st;
                 trace := trace st ++ [NewWebSocket (length (sockets st))] |}).
Proof.
  hook_unfold. destruct (WebSocket_rejects url); simpl; [by rewrite <- !app_assoc|done].
Qed.

Lemma cleanup_run st :
  cleanup st =
  Ok tt {| sockets := match ws st with
                      | Some h => match sockets st !! h with
                                  | Some CONNECTING | Some OPEN => <[h := CLOSING]> (sockets st)
                                  | _ => sockets st
                                  end
                      | None => sockets st
                      end;
           ws := ws st;
           pingInterval := pingInterval st;
           reconnectTimeout := reconnectTimeout st;
           timers := disarmed (reconnectTimeout st)
                              (disarmed (pingInterval st) (timers st));
           nextTimer := nextTimer st;
           messages := messages st; isConnected := isConnected st;
           selectedSymbol := selectedSymbol st; mounted := mounted st;
           trace := trace st ++ [ClearInterval (pingInterval st);
                                 ClearTimeout (reconnectTimeout st)]
                      ++ match ws st with
                         | Some h => [SocketClose h]
                         | None => []
                         end |}.
Proof.
  hook_unfold.
  destruct st as [sk [h|] ? ? ? ? ? ? ? ? ?]; simpl;
    rewrite <- ?app_assoc; simpl; try done;
    destruct (sk !! h) as [[]|]; simpl; done.
Qed.

(** The message handler always completes: whatever the frame, it leaves
    everything but the window and the trace as it was, and sends nothing. *)
Lemma onmessage_run data st :
  exists msgs tr,
    onmessage data st = Ok tt (set_trace (trace st ++ tr) (set_messages msgs st)) /\
    (tr = [] \/ tr = [ConsoleError "Error parsing message:"]).
Proof.
  assert (Hid : st = set_trace (trace st ++ []) (set_messages (messages st) st))
    by (rewrite app_nil_r; by destruct st).
  hook_unfold. case_bool_decide; [exists (messages st), []; split; [by rewrite <- Hid|auto]|].
  destruct (JSON_parse data) as [[|m]|]; simpl.
  - exists (messages st), [ConsoleError "Error parsing message:"]. auto.
  - case_bool_decide; [exists (messages st), []; split; [by rewrite <- Hid|auto]|].
    destruct (mounted st) eqn:Hm; rewrite ?Hm.
    + exists (push_message m (messages st)), []. rewrite app_nil_r; auto.
    + exists (messages st), []. split; [by rewrite <- Hid|auto].
  - exists (messages st), [ConsoleError "Error parsing message:"]. auto.
Qed.


(** *** The invariants hold in every reachable state *)

Lemma current_open_None_closed st :
  (forall h rs, sockets st !! h = Some rs -> rs = CLOSED) -> current_open st = None.
Proof.
  intros Hc. destruct (current_open st) as [h|] eqn:E; [|done].
  apply current_open_Some in E as [_ E]. by specialize (Hc _ _ E).
Qed.

Lemma wf_opened st h st1 :
  wf st -> sockets st !! h = Some CONNECTING ->
  onopen (set_sockets (<[h := OPEN]> (sockets st)) st) = Ok tt st1 -> wf st1.
Proof.
  intros Hwf Hh. rewrite onopen_run. intros [= <-].
  pose proof Hwf as (H1 & H2 & H3 & H4 & H5).
  assert (Hws : ws st = Some h) by (by eapply H1).
  assert (Hco : current_open st = None).
  { unfold current_open. by rewrite Hws, Hh. }
  assert (Hnt : forall id, timers st !! id = None).
  { intros id. destruct (timers st !! id) as [[ms|ms]|] eqn:E; [| |done].
    - destruct (H3 _ _ E) as (_ & _ & Ho). rewrite Hco in Ho. by destruct Ho.
    - destruct (H2 _ _ E) as (_ & _ & Hc). by specialize (Hc _ _ Hh). }
  assert (Hlt : h < length (sockets st)) by (by eapply lookup_lt_Some).
  unfold wf. split; [|split; [|split; [|split]]].
  - intros h' rs; simpl. intros Hl Hne.
    destruct (decide (h' = h)) as [->|Hneq]; [done|].
    rewrite list_lookup_insert_ne in Hl by done. eauto.
  - intros id ms; simpl. rewrite lookup_insert_Some. intros [[_ [=]]|[_ E]].
    by rewrite Hnt in E.
  - intros id ms; simpl. rewrite lookup_insert_Some.
    intros [[<- [= <-]]|[_ E]]; [|by rewrite Hnt in E].
    split; [done|]. split; [done|].
    unfold current_open; simpl. rewrite Hws, list_lookup_insert_eq by done. eauto.
  - intros h'; simpl. intros _. eexists. split; [done|]. by rewrite lookup_insert_eq.
  - intros Hm; simpl in *. rewrite Hm. unfold current_open; simpl.
    rewrite Hws, list_lookup_insert_eq by done. split; eauto.
Qed.

Lemma disarmed_lookup (o : option nat) (armed : gmap nat timer) id t :
  disarmed o armed !! id = Some t <-> armed !! id = Some t /\ o <> Some id.
Proof.
  destruct o as [i|]; simpl; [|naive_solver].
  rewrite lookup_delete_Some. naive_solver.
Qed.

Lemma wf_closed st h rs st1 :
  wf st -> sockets st !! h = Some rs -> rs <> CLOSED ->
  onclose (set_sockets (<[h := CLOSED]> (sockets st)) st) = Ok tt st1 -> wf st1.
Proof.
  intros Hwf Hh Hrs. rewrite onclose_run. intros [= <-].
  pose proof Hwf as (H1 & H2 & H3 & H4 & H5).
  assert (Hws : ws st = Some h) by (by eapply H1).
  assert (Hlt : h < length (sockets st)) by (by eapply lookup_lt_Some).
  assert (Hall : forall h' rs', <[h := CLOSED]> (sockets st) !! h' = Some rs' -> rs' = CLOSED).
  { intros h' rs'. destruct (decide (h' = h)) as [->|Hneq].
    - rewrite list_lookup_insert_eq by done. congruence.
    - rewrite list_lookup_insert_ne by done. intros Hl.
      destruct (decide (rs' = CLOSED)) as [|Hne]; [done|].
      specialize (H1 _ _ Hl Hne). congruence. }
  assert (Hnone : current_open
            (set_sockets (<[h := CLOSED]> (sockets st)) st) = None)
    by (by apply current_open_None_closed).
  unfold wf. split; [|split; [|split; [|split]]].
  - intros h' rs'; simpl. intros Hl Hne. by apply Hall in Hl.
  - intros id ms; simpl. rewrite lookup_insert_Some.
    intros [[<- [= <-]]|[_ [E _]%disarmed_lookup]]; [done|].
    destruct (H2 _ _ E) as (_ & _ & Hc). by specialize (Hc _ _ Hh).
  - intros id ms; simpl. rewrite lookup_insert_Some.
    intros [[_ [=]]|[_ [E Hne]%disarmed_lookup]].
    destruct (H3 _ _ E) as (Hp & _). done.
  - intros h'. unfold current_open in *; simpl in *. by rewrite Hnone.
  - intros Hm; simpl in *. rewrite Hm.
    unfold current_open in *; simpl in *. rewrite Hnone.
    split; [done|]. by intros [? ?].
Qed.

Lemma wf_connect st st1 :
  (forall id, timers st !! id = None) ->
  (forall h rs, sockets st !! h = Some rs -> rs = CLOSED) ->
  (mounted st = true -> isConnected st = false) ->
  connect st = Ok tt st1 -> wf st1.
Proof.
  intros Hnt Hall Hflag. rewrite connect_run. intros [= <-].
  pose proof (current_open_None_closed _ Hall) as Hco.
  destruct (WebSocket_rejects url).
  - unfold wf. split; [|split; [|split; [|split]]].
    + intros h rs; simpl. intros Hl Hne. by apply Hall in Hl.
    + intros id ms; simpl. rewrite lookup_insert_Some.
      intros [[<- [= <-]]|[_ E]]; [done|]. by rewrite Hnt in E.
    + intros id ms; simpl. rewrite lookup_insert_Some.
      intros [[_ [=]]|[_ E]]. by rewrite Hnt in E.
    + intros h. unfold current_open in *; simpl in *. by rewrite Hco.
    + intros Hm; simpl in *. rewrite (Hflag Hm).
      unfold current_open in *; simpl in *. rewrite Hco.
      split; [done|]. by intros [? ?].
  - assert (Hnew : current_open
              {| sockets := sockets st ++ [CONNECTING]; ws := Some (length (sockets st));
                 pingInterval := pingInterval st; reconnectTimeout := reconnectTimeout st;
                 timers := timers st; nextTimer := nextTimer st; messages := messages st;
                 isConnected := isConnected st; selectedSymbol := selectedSymbol st;
                 mounted := mounted st;
                 trace := trace st ++ [NewWebSocket (length (sockets st))] |} = None).
    { unfold current_open; simpl. by rewrite list_lookup_middle. }
    unfold wf. split; [|split; [|split; [|split]]].
    + intros h rs; simpl. intros Hl Hne.
      apply lookup_app_Some in Hl as [Hl|[Hge Hl]]; [by apply Hall in Hl|].
      apply list_lookup_singleton_Some in Hl as [Hz _].
      f_equal. lia.
    + intros id ms; simpl. intros E. by rewrite Hnt in E.
    + intros id ms; simpl. intros E. by rewrite Hnt in E.
    + intros h. by rewrite Hnew.
    + intros Hm. rewrite Hnew. simpl in *. rewrite (Hflag Hm).
      split; [done|]. by intros [? ?].
Qed.

Lemma wf_unmount st st1 :
  wf st -> (do _ <- cleanup; modify (set_mounted false)) st = Ok tt st1 -> wf st1.
Proof.
  intros Hwf. unfold bind. rewrite cleanup_run. unfold modify. intros [= <-].
  pose proof Hwf as (H1 & H2 & H3 & H4 & H5).
  assert (Hnt : forall id,
            disarmed (reconnectTimeout st) (disarmed (pingInterval st) (timers st)) !! id
            = None).
  { intros id. apply eq_None_not_Some. intros [t Ht].
    apply disarmed_lookup in Ht as [[E Hp]%disarmed_lookup Hr].
    destruct t as [ms|ms].
    - by destruct (H3 _ _ E) as (? & _).
    - by destruct (H2 _ _ E) as (? & _). }
  unfold wf. split; [|split; [|split; [|split]]].
  - intros h' rs Hl Hne; simpl in *.
    assert (Hold : sockets st !! h' = Some rs \/ ws st = Some h').
    { destruct (ws st) as [h|] eqn:Hws; [|by left].
      destruct (sockets st !! h) as [[]|] eqn:Hh; try (by left);
        (destruct (decide (h' = h)) as [->|Hneq]; [by right|];
         rewrite list_lookup_insert_ne in Hl by done; by left). }
    destruct Hold as [Hold|]; [by eapply H1|done].
  - intros id ms; simpl. intros E. by rewrite Hnt in E.
  - intros id ms; simpl. intros E. by rewrite Hnt in E.
  - intros h'. intros [Hw Ho]%current_open_Some. simpl in *. exfalso.
    rewrite Hw in Ho.
    destruct (sockets st !! h') as [[]|] eqn:Hh; try congruence;
      rewrite list_lookup_insert_eq in Ho by (by eapply lookup_lt_Some); congruence.
  - intros Hm. simpl in Hm. done.
Qed.

Lemma dispatch_wf st ev st1 :
  wf st -> dispatch ev st = Some (Ok tt st1) -> wf st1.
Proof.
  intros Hwf. pose proof Hwf as (H1 & H2 & H3 & H4 & H5).
  destruct ev as [h|h data|h|h|id|s|]; cbv [dispatch].
  - destruct (sockets st !! h) as [[]|] eqn:Hh; try done.
    intros E%(inj Some). exact (wf_opened _ _ _ Hwf Hh E).
  - destruct (sockets st !! h) as [[]|] eqn:Hh; try done.
    destruct (onmessage_run data st) as (msgs & tr & -> & _).
    intros [= <-]. by eapply wf_same_core.
  - destruct (sockets st !! h) as [rs|] eqn:Hh; [|done].
    intros [= <-]. by eapply wf_same_core.
  - destruct (sockets st !! h) as [rs|] eqn:Hh; [|done].
    destruct rs; try done; intros E%(inj Some);
      exact (wf_closed _ _ _ _ Hwf Hh ltac:(done) E).
  - destruct (timers st !! id) as [[ms|ms]|] eqn:Hid; [| |done].
    + rewrite ping_run. intros [= <-].
      destruct (current_open st); [by eapply wf_same_core|done].
    + intros E%(inj Some). pose proof (H2 _ _ Hid) as (Hr & _ & Hall).
      eapply wf_connect; [| | |exact E]; simpl.
      * intros id'. apply eq_None_not_Some. intros [t Ht].
        apply lookup_delete_Some in Ht as [Hne Ht]. destruct t as [ms'|ms'].
        -- destruct (H3 _ _ Ht) as (_ & _ & Ho).
           rewrite (current_open_None_closed _ Hall) in Ho. by destruct Ho.
        -- destruct (H2 _ _ Ht) as (Hr' & _). congruence.
      * done.
      * intros Hm. destruct (isConnected st) eqn:Hi; [|done].
        apply H5 in Hm. apply Hm in Hi.
        rewrite (current_open_None_closed _ Hall) in Hi. by destruct Hi.
  - destruct (mounted st); [|done]. intros [= <-]. by eapply wf_same_core.
  - destruct (mounted st); [|done]. intros E%(inj Some). exact (wf_unmount _ _ Hwf E).
Qed.

Lemma step_inv st ev st' :
  step st ev = Some st' ->
  exists st1 tr,
    dispatch ev st = Some (Ok tt st1) /\ st' = set_trace (trace st1 ++ tr) st1 /\
    (tr = [] \/
     exists h, tr = [SocketSend h (subscribe_add_frame (selectedSymbol st1))] /\
               current_open st1 = Some h /\ isConnected st1 = true /\ mounted st1 = true /\
               (isConnected st = false \/ selectedSymbol st <> selectedSymbol st1)).
Proof.
  unfold step. destruct (dispatch ev st) as [[[] st1|]|]; try done.
  destruct (subscription_effect_run st st1) as (tr & -> & Htr).
  intros [= <-]. eauto.
Qed.

Lemma step_wf st ev st' : wf st -> step st ev = Some st' -> wf st'.
Proof.
  intros Hwf (st1 & tr & Hd & -> & _)%step_inv.
  eapply wf_same_core; [|by eapply dispatch_wf]. done.
Qed.

Lemma mount_wf st : mount = Ok tt st -> wf st.
Proof.
  unfold mount. apply wf_connect; simpl; try done.
Qed.

Lemma reachable_wf st : reachable st -> wf st.
Proof. induction 1; [by apply mount_wf|by eapply step_wf]. Qed.


(** *** What a step adds to the trace *)

Lemma dispatch_trace st ev st1 :
  dispatch ev st = Some (Ok tt st1) ->
  exists tr, trace st1 = trace st ++ tr /\
    forall h d, In (SocketSend h d) tr ->
      d = "ping" /\ current_open st = Some h /\
      exists id ms, ev = TimerFired id /\ timers st !! id = Some (Interval ms).
Proof.
  destruct ev as [h|h data|h|h|id|s|]; cbv [dispatch].
  - destruct (sockets st !! h) as [[]|]; try done.
    rewrite onopen_run. intros [= <-]. eexists. split; [done|].
    intros h0 d Hin. simpl in Hin. intuition discriminate.
  - destruct (sockets st !! h) as [[]|]; try done.
    destruct (onmessage_run data st) as (msgs & tr & -> & Htr). intros [= <-].
    exists tr. split; [done|]. intros h0 d Hin.
    destruct Htr as [-> | ->]; simpl in Hin; intuition discriminate.
  - destruct (sockets st !! h); [|done]. intros [= <-].
    eexists. split; [done|]. intros h0 d Hin. simpl in Hin. intuition discriminate.
  - destruct (sockets st !! h) as [[]|]; try done;
      rewrite onclose_run; intros [= <-]; (eexists; split; [done|]);
      intros h0 d Hin; simpl in Hin; intuition discriminate.
  - destruct (timers st !! id) as [[ms|ms]|] eqn:Hid; [| |done].
    + rewrite ping_run. intros [= <-].
      destruct (current_open st) as [h|] eqn:Ho.
      * eexists. split; [done|]. intros h0 d [[= <- <-]|[]].
        split; [done|]. split; [done|]. by exists id, ms.
      * exists []. by rewrite app_nil_r.
    + rewrite connect_run. intros [= <-].
      destruct (WebSocket_rejects url); (eexists; split; [done|]);
        intros h0 d Hin; simpl in Hin; intuition discriminate.
  - destruct (mounted st); [|done]. intros [= <-]. exists []. by rewrite app_nil_r.
  - destruct (mounted st); [|done]. unfold bind. rewrite cleanup_run. unfold modify.
    intros [= <-]. eexists. split; [done|].
    intros h0 d Hin. simpl in Hin. destruct (ws st); simpl in Hin; intuition discriminate.
Qed.

(** Every frame a step hands to a socket is either the keepalive of an
    armed interval, on the socket that was current and open, or the
    subscription request for the symbol selected after the step, on the
    socket that is then current and open. *)
Lemma step_trace st ev st' :
  step st ev = Some st' ->
  exists tr, trace st' = trace st ++ tr /\
    forall h d, In (SocketSend h d) tr ->
      (d = "ping" /\ current_open st = Some h /\
       exists id ms, ev = TimerFired id /\ timers st !! id = Some (Interval ms)) \/
      (d = subscribe_add_frame (selectedSymbol st') /\ current_open st' = Some h /\
       isConnected st' = true /\ mounted st' = true /\
       (isConnected st = false \/ selectedSymbol st <> selectedSymbol st')).
Proof.
  intros (st1 & tr2 & Hd & -> & Htr2)%step_inv.
  apply dispatch_trace in Hd as (tr1 & Ht1 & Hsend).
  exists (tr1 ++ tr2). split; [simpl; by rewrite Ht1, app_assoc|].
  intros h d [Hin|Hin]%in_app_or; [left; by apply Hsend|right].
  destruct Htr2 as [->|(h' & -> & Ho & Hi & Hm & Hdeps)]; [done|].
  destruct Hin as [[= <- <-]|[]]. done.
Qed.

Lemma new_effects_app st st' tr : trace st' = trace st ++ tr -> new_effects st st' = tr.
Proof. unfold new_effects. intros ->. by rewrite drop_app_length. Qed.

Lemma subscribe_add_frame_not_ping symbol0 : subscribe_add_frame symbol0 <> "ping".
Proof. unfold subscribe_add_frame. simpl. discriminate. Qed.

Lemma sent_nil tr : (forall h d, ~ In (SocketSend h d) tr) -> sent tr = [].
Proof.
  induction tr as [|e tr IH]; [done|]. intros Hno.
  assert (Htl : sent tr = []) by (apply IH; intros h d Hin; by eapply Hno; right).
  destruct e; try exact Htl. exfalso. eapply Hno. by left.
Qed.


Lemma subscription_effect_same prev st :
  isConnected st = isConnected prev -> selectedSymbol st = selectedSymbol prev ->
  subscription_effect prev st = Ok tt st.
Proof.
  intros Hi Hs. unfold subscription_effect, bind, get.
  rewrite Hi, Hs, eqb_reflx, String.eqb_refl. simpl. by rewrite andb_false_r.
Qed.

Lemma connectionState_Connected st :
  connectionState st = Connected <-> exists h, current_open st = Some h.
Proof.
  unfold connectionState, current_open.
  destruct (ws st) as [h|]; [|split; [done|by intros [? ?]]].
  destruct (sockets st !! h) as [[]|]; split; try done; try (by intros [? ?]); eauto.
Qed.

(** *** Inbound frames *)

(** A frame that parses to an object other than a subscription confirmation
    goes through the updater of the window. *)
Lemma onmessage_appends data m st :
  data <> "pong" -> JSON_parse data = Some (JsonObject m) -> type m <> "subscribed" ->
  mounted st = true ->
  onmessage data st = Ok tt (set_messages (push_message m (messages st)) st).
Proof.
  intros Hpong Hparse Hty Hm.
  unfold onmessage, try_catch, bind, ret, setMessages, modify.
  rewrite bool_decide_false by done. rewrite Hparse.
  rewrite bool_decide_false by done. by rewrite Hm.
Qed.

(** C6: a pong frame, a frame that does not parse and a subscription
    confirmation leave the window as it was, and the handler completes
    without throwing. *)
Theorem control_and_malformed_frames_dropped (data : string) (st : state) :
  data = "pong" \/ JSON_parse data = None \/
    (exists m, JSON_parse data = Some (JsonObject m) /\ type m = "subscribed") ->
  (exists tr, onmessage data st = Ok tt (set_trace (trace st ++ tr) st)) /\
  (forall h, sockets st !! h = Some OPEN ->
     exists st', step st (SocketMessage h data) = Some st' /\
                 messages st' = messages st).
Proof.
  intros Hkind.
  assert (Hid : st = set_trace (trace st ++ []) st)
    by (rewrite app_nil_r; by destruct st).
  assert (Hrun : exists tr, onmessage data st = Ok tt (set_trace (trace st ++ tr) st)).
  { unfold onmessage, try_catch, bind, ret, raise, console_error, emit, modify.
    case_bool_decide; [exists []; by rewrite <- Hid|].
    destruct Hkind as [->|[Hp|(m & Hp & Ht)]]; [done| |]; rewrite Hp.
    - by eexists.
    - rewrite bool_decide_true by done. exists []. by rewrite <- Hid. }
  split; [done|]. intros h Hh. destruct Hrun as (tr & Hrun).
  unfold step. cbv [dispatch]. rewrite Hh, Hrun.
  rewrite subscription_effect_same by done. by eexists.
Qed.

(** *** Keepalive *)

(** C5: a ping is only ever sent by a firing keepalive interval, on the
    current socket and while it is open; a firing interval sends one ping
    when the current socket is open and otherwise does nothing, without
    throwing; the open handler arms the interval with a period of 25000 ms,
    and in every reachable state the interval is armed exactly while the
    connection is Connected, which for a mounted page is exactly while
    [isConnected] is true. *)
Theorem keepalive_guarded (st : state) :
  (forall ev st' h,
      step st ev = Some st' -> In (SocketSend h "ping") (new_effects st st') ->
      connectionState st = Connected /\ ws st = Some h /\
      exists id ms, ev = TimerFired id /\ timers st !! id = Some (Interval ms)) /\
  (forall id ms,
      timers st !! id = Some (Interval ms) ->
      exists st', step st (TimerFired id) = Some st' /\ same_core st st' /\
        new_effects st st' = match current_open st with
                             | Some h => [SocketSend h "ping"]
                             | None => []
                             end) /\
  (forall h st',
      step st (SocketOpened h) = Some st' ->
      exists id, pingInterval st' = Some id /\
                 timers st' !! id = Some (Interval 25000) /\
                 In (SetInterval id 25000) (new_effects st st')) /\
  (reachable st ->
     (connectionState st = Connected ->
      exists id, pingInterval st = Some id /\ timers st !! id = Some (Interval 25000)) /\
     (forall id ms, timers st !! id = Some (Interval ms) ->
                    ms = 25000%Z /\ connectionState st = Connected) /\
     (mounted st = true -> (isConnected st = true <-> connectionState st = Connected))).
Proof.
  split; [|split; [|split]].
  - intros ev st' h Hstep Hin.
    destruct (step_trace _ _ _ Hstep) as (tr & Htr & Hsend).
    rewrite (new_effects_app _ _ _ Htr) in Hin.
    destruct (Hsend _ _ Hin) as [(_ & Ho & Hev)|(Hf & _)].
    + split; [apply connectionState_Connected; eauto|].
      split; [by apply current_open_Some in Ho as [? _]|done].
    + symmetry in Hf. by apply subscribe_add_frame_not_ping in Hf.
  - intros id ms Hid. unfold step. cbv [dispatch]. rewrite Hid, ping_run.
    destruct (current_open st) as [h|] eqn:Ho.
    + rewrite subscription_effect_same by done. eexists. split; [done|].
      split; [done|]. by apply new_effects_app.
    + rewrite subscription_effect_same by done. eexists. split; [done|].
      split; [done|]. apply new_effects_app. by rewrite app_nil_r.
  - intros h st' (st1 & tr & Hd & -> & _)%step_inv.
    cbv [dispatch] in Hd. destruct (sockets st !! h) as [[]|]; try done.
    rewrite onopen_run in Hd. injection Hd as <-. simpl.
    exists (nextTimer st). split; [done|]. split; [by rewrite lookup_insert_eq|].
    erewrite new_effects_app; [|simpl; by rewrite <- app_assoc].
    simpl. auto.
  - intros (H1 & H2 & H3 & H4 & H5)%reachable_wf. split; [|split].
    + intros [h Ho]%connectionState_Connected. by eapply H4.
    + intros id ms Hid. destruct (H3 _ _ Hid) as (_ & -> & [h Ho]).
      split; [done|]. apply connectionState_Connected. eauto.
    + intros Hm. rewrite (H5 Hm), connectionState_Connected. done.
Qed.


(** *** Teardown *)

Lemma cleanup_disarms_all st :
  wf st -> disarmed (reconnectTimeout st) (disarmed (pingInterval st) (timers st)) = ∅.
Proof.
  intros (_ & H2 & H3 & _). apply map_empty. intros id.
  apply eq_None_not_Some. intros [t Ht].
  apply disarmed_lookup in Ht as [[E Hp]%disarmed_lookup Hr].
  destruct t as [ms|ms].
  - by destruct (H3 _ _ E) as (? & _).
  - by destruct (H2 _ _ E) as (? & _).
Qed.

(** C7, amended: the cleanup clears the keepalive interval, then the
    reconnect timeout, then closes the current socket if there is one, and
    no timer that was armed at that time stays armed. *)
Theorem cleanup_clears_then_closes (st st' : state) :
  reachable st -> step st Unmount = Some st' ->
  new_effects st st' =
    [ClearInterval (pingInterval st); ClearTimeout (reconnectTimeout st)]
    ++ match ws st with
       | Some h => [SocketClose h]
       | None => []
       end /\
  timers st' = ∅ /\
  mounted st' = false /\
  connectionState st' <> Connected.
Proof.
  intros Hwf%reachable_wf (st1 & tr & Hd & -> & Htr)%step_inv.
  cbv [dispatch] in Hd. destruct (mounted st); [|done].
  unfold bind in Hd. rewrite cleanup_run in Hd. unfold modify in Hd.
  injection Hd as <-.
  destruct Htr as [->|(h & _ & _ & _ & Hm & _)]; [|done].
  split; [apply new_effects_app; simpl; by rewrite app_nil_r|].
  split; [simpl; by apply cleanup_disarms_all|].
  split; [done|].
  intros [h [Hw Ho]%current_open_Some]%connectionState_Connected. simpl in *.
  rewrite Hw in Ho.
  destruct (sockets st !! h) as [[]|] eqn:Hh; try congruence;
    rewrite list_lookup_insert_eq in Ho by (by eapply lookup_lt_Some); congruence.
Qed.

(** *** Socket handles *)

Lemma filter_live_nil (l : list ReadyState) :
  (forall h rs, l !! h = Some rs -> rs = CLOSED) -> List.filter is_live l = [].
Proof.
  induction l as [|a l IH]; [done|]. intros Hall. simpl.
  rewrite (Hall 0 a eq_refl). simpl. apply IH. intros h rs Hl. by apply (Hall (S h)).
Qed.

Lemma live_at_most_one (l : list ReadyState) (o : option nat) (k : nat) :
  (forall h rs, l !! h = Some rs -> rs <> CLOSED -> o = Some (k + h)) ->
  length (List.filter is_live l) <= 1.
Proof.
  revert k. induction l as [|a l IH]; intros k Hone; [simpl; lia|].
  destruct (decide (a = CLOSED)) as [->|Ha].
  - simpl. apply (IH (S k)). intros h rs Hl Hne.
    rewrite (Hone (S h) rs Hl Hne). f_equal. lia.
  - assert (Hnil : List.filter is_live l = []).
    { apply filter_live_nil. intros h rs Hl.
      destruct (decide (rs = CLOSED)) as [|Hne]; [done|].
      pose proof (Hone 0 a eq_refl Ha) as H0.
      pose proof (Hone (S h) rs Hl Hne) as H1.
      rewrite H0 in H1. injection H1. lia. }
    simpl. rewrite Hnil. destruct (is_live a); simpl; lia.
Qed.

(** C4, amended: connect has no guard: whenever the socket constructor
    accepts the URL, a call constructs one more socket and makes it the
    current one, whatever the connection state.  The hook keeps a single
    live handle only because it calls connect from a reconnect timeout,
    which is armed only while no socket is live. *)
Theorem connect_unguarded (st : state) :
  reachable st -> WebSocket_rejects url = false ->
  (exists st', connect st = Ok tt st' /\
               live_sockets st' = S (live_sockets st) /\
               sockets st' = sockets st ++ [CONNECTING] /\
               ws st' = Some (length (sockets st))) /\
  (forall id ms, timers st !! id = Some (Timeout ms) -> live_sockets st = 0) /\
  live_sockets st <= 1.
Proof.
  intros (H1 & H2 & _)%reachable_wf Hok. split; [|split].
  - rewrite connect_run, Hok. eexists. split; [done|]. split; [|done].
    unfold live_sockets. simpl. rewrite List.filter_app, length_app. simpl. lia.
  - intros id ms Hid. destruct (H2 _ _ Hid) as (_ & _ & Hall).
    unfold live_sockets. by rewrite filter_live_nil.
  - unfold live_sockets. apply (live_at_most_one _ (ws st) 0). intros h rs Hl Hne.
    simpl. by eapply H1.
Qed.


(** *** Subscription replay *)

Lemma run_app st evs1 evs2 :
  run st (evs1 ++ evs2) = match run st evs1 with
                          | Some st1 => run st1 evs2
                          | None => None
                          end.
Proof.
  revert st. induction evs1 as [|ev evs1 IH]; intros st; simpl; [done|].
  destruct (step st ev); [apply IH|done].
Qed.

Lemma forallb_take {A} (f : A -> bool) (l : list A) k :
  forallb f l = true -> forallb f (take k l) = true.
Proof.
  revert k. induction l as [|a l IH]; intros [|k]; simpl; try done.
  intros [-> Hl]%andb_true_iff. simpl. by apply IH.
Qed.

Lemma offline_not_Connected st : offline st -> connectionState st <> Connected.
Proof.
  intros (_ & _ & _ & Hno) [h [_ Ho]%current_open_Some]%connectionState_Connected.
  by apply Hno in Ho.
Qed.

Lemma dispatch_offline st ev st1 :
  offline st -> offline_event ev = true -> dispatch ev st = Some (Ok tt st1) ->
  mounted st1 = true /\ isConnected st1 = false /\
  (forall h, sockets st1 !! h <> Some OPEN) /\
  (keeps_symbol ev = true -> selectedSymbol st1 = selectedSymbol st) /\
  (forall s, ev = SelectSymbol s -> selectedSymbol st1 = s).
Proof.
  intros (Hwf & Hm & Hi & Hno) Hev.
  assert (Hco : current_open st = None).
  { destruct (current_open st) as [h|] eqn:E; [|done].
    apply current_open_Some in E as [_ E]. by apply Hno in E. }
  destruct ev as [h|h data|h|h|id|s|]; try done; cbv [dispatch].
  - destruct (sockets st !! h) as [[]|] eqn:Hh; try done. by apply Hno in Hh.
  - destruct (sockets st !! h); [|done]. intros [= <-]. simpl. done.
  - assert (Hins : forall h', <[h := CLOSED]> (sockets st) !! h' <> Some OPEN).
    { intros h' [(_ & [=] & _)|[_ E]]%list_lookup_insert_Some. by apply Hno in E. }
    destruct (sockets st !! h) as [[]|]; try done;
      rewrite onclose_run; intros [= <-]; simpl; rewrite Hm; done.
  - destruct (timers st !! id) as [[ms|ms]|]; [| |done].
    + rewrite ping_run, Hco. intros [= <-]. done.
    + rewrite connect_run. intros [= <-].
      destruct (WebSocket_rejects url); simpl; [done|].
      split; [done|]. split; [done|]. split; [|done].
      intros h [E|[_ E]]%lookup_app_Some; [by apply Hno in E|].
      by apply list_lookup_singleton_Some in E as [_ [=]].
  - rewrite Hm. intros [= <-]. simpl. split; [done|]. split; [done|].
    split; [done|]. split; [done|]. by intros s' [= ->].
Qed.

Lemma step_offline st ev st' :
  offline st -> offline_event ev = true -> step st ev = Some st' ->
  offline st' /\ sent (trace st') = sent (trace st) /\
  (keeps_symbol ev = true -> selectedSymbol st' = selectedSymbol st) /\
  (forall s, ev = SelectSymbol s -> selectedSymbol st' = s).
Proof.
  intros Hoff Hev Hstep.
  pose proof Hoff as (Hwf & Hm & Hi & Hno).
  pose proof (step_wf _ _ _ Hwf Hstep) as Hwf'.
  destruct (step_trace _ _ _ Hstep) as (tr & Htr & Hsend).
  destruct (step_inv _ _ _ Hstep) as (st1 & tr2 & Hd & -> & _).
  destruct (dispatch_offline _ _ _ Hoff Hev Hd) as (Hm1 & Hi1 & Hno1 & Hk & Hs).
  assert (Hnil : sent tr = []).
  { apply sent_nil. intros h d [(_ & Ho & _)|(_ & _ & Hi' & _)]%Hsend.
    - apply current_open_Some in Ho as [_ Ho]. by apply Hno in Ho.
    - simpl in Hi'. congruence. }
  split; [done|]. split; [|done].
  rewrite Htr. unfold sent in *. by rewrite omap_app, Hnil, app_nil_r.
Qed.

Lemma run_offline st evs st' :
  offline st -> forallb offline_event evs = true -> run st evs = Some st' ->
  offline st' /\ sent (trace st') = sent (trace st) /\
  (forallb keeps_symbol evs = true -> selectedSymbol st' = selectedSymbol st).
Proof.
  revert st. induction evs as [|ev evs IH]; intros st Hoff Hall; simpl.
  - by intros [= <-].
  - apply andb_true_iff in Hall as [Hev Hall].
    destruct (step st ev) as [st1|] eqn:Hstep; [|done]. intros Hrun.
    destruct (step_offline _ _ _ Hoff Hev Hstep) as (Hoff1 & Hsent1 & Hk1 & _).
    destruct (IH _ Hoff1 Hall Hrun) as (Hoff' & Hsent' & Hk').
    split; [done|]. split; [congruence|].
    intros [Hkev Hkall]%andb_true_iff. rewrite Hk' by done. by apply Hk1.
Qed.

(** When the current socket closes under a mounted page, the page is
    offline, and nothing was sent. *)
Lemma closed_goes_offline st h st1 :
  wf st -> mounted st = true -> step st (SocketClosed h) = Some st1 ->
  offline st1 /\ sent (trace st1) = sent (trace st).
Proof.
  intros Hwf Hm Hstep.
  pose proof (step_wf _ _ _ Hwf Hstep) as Hwf1.
  destruct (step_trace _ _ _ Hstep) as (tr & Htr & Hsend).
  destruct (step_inv _ _ _ Hstep) as (st0 & tr2 & Hd & -> & _).
  cbv [dispatch] in Hd.
  assert (Hrun : onclose (set_sockets (<[h := CLOSED]> (sockets st)) st) = Ok tt st0)
    by (destruct (sockets st !! h) as [[]|]; try done; by apply (inj Some) in Hd).
  clear Hd. rewrite onclose_run in Hrun. injection Hrun as <-. simpl in *.
  rewrite Hm in *.
  assert (Hall : forall h' rs, <[h := CLOSED]> (sockets st) !! h' = Some rs -> rs = CLOSED).
  { destruct Hwf1 as (_ & H2 & _).
    destruct (H2 (nextTimer st) 3000%Z) as (_ & _ & Hall); [|done].
    simpl. by rewrite lookup_insert_eq. }
  split.
  - split; [done|]. split; [done|]. split; [done|].
    intros h' Ho. by apply Hall in Ho.
  - assert (Hnil : sent tr = []).
    { apply sent_nil. intros h' d [(_ & _ & id & ms & [=] & _)|(_ & _ & Hi' & _)]%Hsend.
      simpl in Hi'. done. }
    rewrite Htr. unfold sent in *. by rewrite omap_app, Hnil, app_nil_r.
Qed.

(** When a socket opens under an offline page, the open handler arms the
    keepalive and the subscription effect sends the request for the symbol
    selected at that time. *)
Lemma open_subscribes st h st' :
  offline st -> selectedSymbol st <> "" -> step st (SocketOpened h) = Some st' ->
  trace st' = trace st ++ [ConsoleLog "✓ WebSocket connected";
                           SetInterval (nextTimer st) 25000;
                           SocketSend h (subscribe_add_frame (selectedSymbol st))] /\
  connectionState st' = Connected.
Proof.
  intros ((H1 & _) & Hm & Hi & Hno) Hsym. unfold step. cbv [dispatch].
  destruct (sockets st !! h) as [[]|] eqn:Hh; try done.
  assert (Hws : ws st = Some h) by (by eapply H1).
  assert (Hlt : h < length (sockets st)) by (by eapply lookup_lt_Some).
  rewrite onopen_run. simpl. rewrite Hm.
  unfold subscription_effect, bind, get. simpl. rewrite Hi. simpl.
  apply String.eqb_neq in Hsym. rewrite Hsym. simpl.
  rewrite subscribe_run.
  lazymatch goal with
  | |- context [current_open ?s] =>
      assert (Hco : current_open s = Some h)
        by (apply current_open_Some; simpl; by rewrite list_lookup_insert_eq);
      rewrite Hco
  end.
  intros [= <-]. simpl. split; [by rewrite <- app_assoc|].
  unfold connectionState. simpl. by rewrite Hws, list_lookup_insert_eq.
Qed.

(** C3: the page shows ETH, the connection closes, the user picks SOL while
    the page is offline, and a socket opens again.  At no point of the
    offline period is anything sent, and the open sends exactly one frame:
    the subscription request for SOL. *)
Theorem subscription_replay (st : state) (h h' : nat) (evs1 evs2 : list event)
    (st' : state) :
  reachable st -> mounted st = true ->
  connectionState st = Connected -> selectedSymbol st = "ETH" ->
  forallb offline_event (evs1 ++ evs2) = true ->
  forallb keeps_symbol evs2 = true ->
  run st (SocketClosed h :: evs1 ++ SelectSymbol "SOL" :: evs2 ++ [SocketOpened h'])
    = Some st' ->
  (forall k stk,
      run st (take k (SocketClosed h :: evs1 ++ SelectSymbol "SOL" :: evs2)) = Some stk ->
      sent (trace stk) = sent (trace st) /\
      (0 < k -> connectionState stk <> Connected)) /\
  sent (trace st') =
    sent (trace st) ++ [(h', wire "{'action':'subscribe_add','symbol':'SOL'}")] /\
  connectionState st' = Connected.
Proof.
  intros Hwf%reachable_wf Hm _ _ Hoff Hkeep Hrun.
  rewrite forallb_app in Hoff. apply andb_true_iff in Hoff as [Hoff1 Hoff2].
  simpl in Hrun. destruct (step st (SocketClosed h)) as [st1|] eqn:Hclose; [|done].
  destruct (closed_goes_offline _ _ _ Hwf Hm Hclose) as (Hoffl1 & Hsent1).
  assert (Hall : forallb offline_event (evs1 ++ SelectSymbol "SOL" :: evs2) = true).
  { rewrite forallb_app. simpl. by rewrite Hoff1, Hoff2. }
  split.
  - intros [|k] stk; simpl; [intros [= <-]; split; [done|lia]|].
    rewrite Hclose. intros Hk.
    destruct (run_offline _ _ _ Hoffl1 (forallb_take _ _ k Hall) Hk) as (Hoffk & Hsentk & _).
    split; [congruence|]. intros _. by apply offline_not_Connected.
  - rewrite run_app in Hrun.
    destruct (run st1 evs1) as [sa|] eqn:Hr1; [|done].
    destruct (run_offline _ _ _ Hoffl1 Hoff1 Hr1) as (Hoffa & Hsenta & _).
    simpl in Hrun.
    destruct (step sa (SelectSymbol "SOL")) as [sb|] eqn:Hsel; [|done].
    destruct (step_offline sa (SelectSymbol "SOL") sb Hoffa eq_refl Hsel)
      as (Hoffb & Hsentb & _ & Hsymb).
    rewrite run_app in Hrun.
    destruct (run sb evs2) as [sc|] eqn:Hr2; [|done].
    destruct (run_offline _ _ _ Hoffb Hoff2 Hr2) as (Hoffc & Hsentc & Hsymc).
    simpl in Hrun.
    destruct (step sc (SocketOpened h')) as [sd|] eqn:Hopen; [|done].
    injection Hrun as <-.
    assert (Hsol : selectedSymbol sc = "SOL").
    { rewrite Hsymc by done. by apply Hsymb. }
    destruct (open_subscribes _ _ _ Hoffc ltac:(by rewrite Hsol) Hopen) as (Htr & Hconn).
    assert (Hframe : subscribe_add_frame "SOL"
                     = wire "{'action':'subscribe_add','symbol':'SOL'}") by reflexivity.
    split; [|done]. rewrite Htr, Hsol, Hframe. unfold sent in *.
    rewrite omap_app, Hsentc, Hsentb, Hsenta, Hsent1. reflexivity.
Qed.


Lemma run_reachable st evs st' : reachable st -> run st evs = Some st' -> reachable st'.
Proof.
  revert st. induction evs as [|ev evs IH]; intros st Hr; simpl; [by intros [= <-]|].
  destruct (step st ev) as [st1|] eqn:Hstep; [|done].
  apply IH. by eapply reachable_step.
Qed.

End UseWebSocketProperties.



(** * Properties of the window and the stats *)

(** ** The window *)

Lemma push_message_most_recent m prev :
  push_message m prev = most_recent 501 (prev ++ [m]).
Proof.
  unfold push_message, slice_from_end, most_recent.
  rewrite length_app. simpl.
  replace (length prev + 1 - 501) with (length prev - 500) by lia.
  rewrite drop_app_le by lia. done.
Qed.

Lemma most_recent_app {A} n (l k : list A) :
  most_recent n (most_recent n l ++ k) = most_recent n (l ++ k).
Proof.
  unfold most_recent.
  rewrite !drop_app, !length_app, !length_drop, drop_drop.
  f_equal; f_equal; lia.
Qed.

(** The window keeps the most recent 501 events, not 500. *)
Lemma appends_most_recent events window :
  appends events (most_recent 501 window) = most_recent 501 (window ++ events).
Proof.
  revert window. induction events as [|m events IH]; intros window; simpl.
  - by rewrite app_nil_r.
  - rewrite push_message_most_recent, most_recent_app, IH.
    by rewrite <- app_assoc.
Qed.

Lemma appends_from_empty events : appends events [] = most_recent 501 events.
Proof. apply (appends_most_recent events []). Qed.

Lemma appends_length events : length (appends events []) = min 501 (length events).
Proof. rewrite appends_from_empty. unfold most_recent. rewrite length_drop. lia. Qed.

(** ** The stats *)

Example stats_of_a_mixed_window :
  stats [Market "BTC" 100; Sentiment 0.5; Market "ETH" 7; Signal "BTC" 101;
         Market "BTC" 110; Sentiment (-0.1)] "BTC" "USD"
  = {| latestPrice := Some 110%float; priceChange := 10%float; avgSentiment := 0.2%float;
       totalSignals := 1; totalDataPoints := 2; currency := "USD" |}.
Proof. reflexivity. Qed.

Lemma price_from_end_reverse k arr :
  price_from_end k arr = price <$> reverse arr !! k.
Proof.
  unfold price_from_end. case_bool_decide.
  - by rewrite reverse_lookup by lia.
  - rewrite (lookup_ge_None_2 (reverse arr)); [done|]. rewrite length_reverse. lia.
Qed.

Lemma priceChange_stats window sym cur :
  priceChange (stats window sym cur) =
  price_change (price <$> reverse (matching_market window sym) !! 0)
               (price <$> reverse (matching_market window sym) !! 1).
Proof. unfold stats. simpl. by rewrite !price_from_end_reverse. Qed.

Lemma float_neq_by_sign (x y : float) :
  PrimFloat.ltb x 0 <> PrimFloat.ltb y 0 -> x <> y.
Proof. intros H ->. by apply H. Qed.

(** C2, as stated: two matching ticks 100 then 0 have a relative change of
    -100 but the code reports 0, because a price of 0 fails the guard. *)
Lemma priceChange_zero_price_counterexample :
  priceChange (stats [Market "BTC" 100; Market "BTC" 0] "BTC" "USD")
  <> spec_priceChange [Market "BTC" 100; Market "BTC" 0] "BTC".
Proof. apply float_neq_by_sign. vm_compute. discriminate. Qed.

(** C2, amended: priceChange is the relative change between the two most
    recent matching Market events when there are two and both prices are
    truthy, and 0 otherwise; two ticks 100 then 110 give 10, one tick gives 0. *)
Theorem priceChange_guarded (window : list message) (activeSymbol cur : string) :
  priceChange (stats window activeSymbol cur) = guarded_priceChange window activeSymbol /\
  priceChange (stats [Market "BTC" 100; Market "BTC" 110] "BTC" cur) = 10%float /\
  priceChange (stats [Market "BTC" 100] "BTC" cur) = 0%float.
Proof.
  split; [|split; reflexivity].
  rewrite priceChange_stats. unfold guarded_priceChange.
  destruct (reverse (matching_market window activeSymbol)) as [|latest [|previous rest]];
    simpl; try reflexivity.
  unfold price_change. simpl. by rewrite andb_false_r.
Qed.

Lemma price_change_of_last_two window sym older previous latest :
  matching_market window sym = older ++ [previous; latest] ->
  forall cur, priceChange (stats window sym cur) =
              price_change (Some (price latest)) (Some (price previous)).
Proof.
  intros Hmm cur. rewrite priceChange_stats, Hmm.
  replace (older ++ [previous; latest]) with ((older ++ [previous]) ++ [latest])
    by (by rewrite <- app_assoc).
  by rewrite !reverse_snoc.
Qed.

(** C10, as stated: with finite non-zero prices 1e-10 then 1e308 the guard
    passes and the quotient overflows, so priceChange is infinite. *)
Lemma priceChange_overflow_counterexample :
  PrimFloat.is_finite
    (priceChange (stats [Market "BTC" 1e-10; Market "BTC" 1e308] "BTC" "USD")) = false /\
  truthy_number 1e-10 = true /\ truthy_number 1e308 = true.
Proof. vm_compute. done. Qed.

(** C10, amended: when the window holds two matching Market events or more,
    priceChange is 0 whenever one of the two most recent prices is zero, and
    otherwise it is either 0 or the quotient, the quotient being taken only
    when both prices are truthy, so that its divisor is never zero. *)
Theorem priceChange_division_guarded
    (window : list message) (activeSymbol cur : string) (older : list message)
    (previous latest : message) :
  matching_market window activeSymbol = older ++ [previous; latest] ->
  (PrimFloat.is_zero (price latest) || PrimFloat.is_zero (price previous) = true ->
   priceChange (stats window activeSymbol cur) = 0%float) /\
  (truthy_number (price latest) && truthy_number (price previous) = true ->
   PrimFloat.is_zero (price previous) = false /\
   PrimFloat.is_zero (price latest) = false /\
   priceChange (stats window activeSymbol cur) =
   ((price latest - price previous) / price previous * 100)%float) /\
  (truthy_number (price latest) && truthy_number (price previous) = false ->
   priceChange (stats window activeSymbol cur) = 0%float).
Proof.
  intros Hmm. rewrite (price_change_of_last_two _ _ _ _ _ Hmm).
  unfold price_change, truthy, truthy_number, to_number, PrimFloat.is_zero.
  change PrimFloat.zero with 0%float.
  destruct (PrimFloat.eqb (price latest) 0), (PrimFloat.eqb (price previous) 0),
    (PrimFloat.is_nan (price latest)), (PrimFloat.is_nan (price previous));
    simpl; intuition congruence.
Qed.

Lemma sum_scores_fold arr :
  sum_scores arr = fold_left PrimFloat.add (map score arr) 0%float.
Proof.
  unfold sum_scores. generalize 0%float.
  induction arr as [|m arr IH]; intros acc; simpl; [done|apply IH].
Qed.

(** C8: avgSentiment is the mean of the scores of all Sentiment events of the
    window, whatever the active symbol, and 0 when there is none; scores 0.5
    and -0.1 give 0.2. *)
Theorem avgSentiment_is_mean (window : list message) (activeSymbol cur : string) :
  avgSentiment (stats window activeSymbol cur) = spec_avgSentiment window /\
  (sentiment_scores window = [] -> avgSentiment (stats window activeSymbol cur) = 0%float) /\
  avgSentiment (stats [Sentiment 0.5; Sentiment (-0.1)] activeSymbol cur) = 0.2%float.
Proof.
  assert (Heq : avgSentiment (stats window activeSymbol cur) = spec_avgSentiment window).
  { unfold stats, spec_avgSentiment, sentiment_scores, avg_sentiment, arithmetic_mean. simpl.
    destruct (List.filter is_sentiment window) as [|m l] eqn:E; simpl; [done|].
    rewrite (sum_scores_fold (m :: l)). simpl. by rewrite length_map. }
  split; [done|]. split; [|reflexivity].
  intros Hnone. rewrite Heq. unfold spec_avgSentiment. by rewrite Hnone.
Qed.

Lemma array_at_old (hp ext : heap) a : a < length hp -> array_at (hp ++ ext) a = array_at hp a.
Proof. intros H. unfold array_at. by rewrite lookup_app_l. Qed.

Lemma array_at_new (hp : heap) x ext : array_at (hp ++ x :: ext) (length hp) = x.
Proof. unfold array_at. by rewrite list_lookup_middle. Qed.

Lemma Array_price_from_end_run k arr hp :
  Array_price_from_end k arr hp = Ok (price_from_end k (array_at hp arr)) hp.
Proof.
  unfold Array_price_from_end, price_from_end, bind, Array_length, Array_price_at, ret.
  case_bool_decide as Hk; [|done].
  destruct (array_at hp arr !! _) eqn:E; [done|].
  apply lookup_ge_None in E. lia.
Qed.

Lemma bind_Ok {S A B} (m : M S A) (k : A -> M S B) s a s' :
  m s = Ok a s' -> bind m k s = k a s'.
Proof. unfold bind. by intros ->. Qed.

(** The memo body returns the stats of the contents of [messages] and only
    allocates: the heap it leaves extends the heap it found. *)
Lemma stats_memo_run (hp : heap) (a : nat) (sym cur : string) :
  a < length hp ->
  stats_memo a sym cur hp =
  Ok (stats (array_at hp a) sym cur)
     (hp ++ [List.filter (is_market_of sym) (array_at hp a);
             List.filter is_sentiment (array_at hp a);
             List.filter is_signal (array_at hp a)]).
Proof.
  intros Ha. unfold stats_memo, Array_filter.
  set (mk := List.filter (is_market_of sym) (array_at hp a)).
  set (se := List.filter is_sentiment (array_at hp a)).
  set (si := List.filter is_signal (array_at hp a)).
  assert (H1 : array_at (hp ++ [mk]) a = array_at hp a) by by apply array_at_old.
  assert (H2 : array_at ((hp ++ [mk]) ++ [se]) a = array_at hp a).
  { rewrite <- app_assoc. by apply array_at_old. }
  assert (Hmk : array_at (((hp ++ [mk]) ++ [se]) ++ [si]) (length hp) = mk).
  { rewrite <- !app_assoc. apply array_at_new. }
  assert (Hse : array_at (((hp ++ [mk]) ++ [se]) ++ [si]) (length (hp ++ [mk])) = se).
  { rewrite <- (app_assoc (hp ++ [mk])). apply array_at_new. }
  assert (Hsi : array_at (((hp ++ [mk]) ++ [se]) ++ [si]) (length ((hp ++ [mk]) ++ [se])) = si).
  { apply array_at_new. }
  erewrite bind_Ok by reflexivity. fold mk.
  erewrite bind_Ok by reflexivity. rewrite H1. fold se.
  erewrite bind_Ok by reflexivity. rewrite H2. fold si.
  erewrite bind_Ok by apply Array_price_from_end_run.
  erewrite bind_Ok by apply Array_price_from_end_run.
  unfold bind, Array_length, Array_reduce_scores, ret.
  rewrite Hmk, Hse.
  unfold stats, avg_sentiment. fold mk se si.
  case_bool_decide; rewrite ?Hmk, ?Hse, ?Hsi, <- ?app_assoc; done.
Qed.

(** C9: the stats derivation depends only on the contents of the window, the
    active symbol and the currency; run twice in a row it returns the same
    stats, and it changes no array that existed before. *)
Theorem stats_memo_pure (hp : heap) (a : nat) (sym cur : string) :
  a < length hp ->
  exists fresh1 fresh2,
    stats_memo a sym cur hp = Ok (stats (array_at hp a) sym cur) (hp ++ fresh1) /\
    stats_memo a sym cur (hp ++ fresh1) =
      Ok (stats (array_at hp a) sym cur) ((hp ++ fresh1) ++ fresh2) /\
    (forall b, b < length hp -> ((hp ++ fresh1) ++ fresh2) !! b = hp !! b).
Proof.
  intros Ha. eexists _, _. split; [by apply stats_memo_run|]. split.
  - rewrite stats_memo_run by (rewrite length_app; lia).
    by rewrite array_at_old.
  - intros b Hb. by rewrite <- app_assoc, lookup_app_l.
Qed.

(** The memo run twice over a heap that holds one window. *)
Lemma stats_memo_pure_witness :
  exists fresh1 fresh2,
    stats_memo 0 "BTC" "USD" [[Market "BTC" 100; Sentiment 0.5; Market "BTC" 110]] =
      Ok (stats [Market "BTC" 100; Sentiment 0.5; Market "BTC" 110] "BTC" "USD")
         ([[Market "BTC" 100; Sentiment 0.5; Market "BTC" 110]] ++ fresh1) /\
    stats_memo 0 "BTC" "USD" ([[Market "BTC" 100; Sentiment 0.5; Market "BTC" 110]] ++ fresh1) =
      Ok (stats [Market "BTC" 100; Sentiment 0.5; Market "BTC" 110] "BTC" "USD")
         (([[Market "BTC" 100; Sentiment 0.5; Market "BTC" 110]] ++ fresh1) ++ fresh2) /\
    (forall b, b < 1 ->
       (([[Market "BTC" 100; Sentiment 0.5; Market "BTC" 110]] ++ fresh1) ++ fresh2) !! b
       = [[Market "BTC" 100; Sentiment 0.5; Market "BTC" 110]] !! b).
Proof.
  apply (stats_memo_pure [[Market "BTC" 100; Sentiment 0.5; Market "BTC" 110]] 0 "BTC" "USD").
  simpl. lia.
Defined.

(** Two matching ticks, the latest at price 0. *)
Lemma priceChange_division_guarded_witness :
  matching_market [Market "BTC" 100; Market "ETH" 7; Market "BTC" 0] "BTC"
    = [] ++ [Market "BTC" 100; Market "BTC" 0] /\
  priceChange (stats [Market "BTC" 100; Market "ETH" 7; Market "BTC" 0] "BTC" "USD") = 0%float.
Proof.
  split; [reflexivity|].
  apply (priceChange_division_guarded
           [Market "BTC" 100; Market "ETH" 7; Market "BTC" 0] "BTC" "USD"
           [] (Market "BTC" 100) (Market "BTC" 0)); reflexivity.
Defined.

(** * Further properties of the hook *)

Section UseWebSocketFurther.

Context `{Runtime}.



(** *** The window under the events *)

Lemma dispatch_messages st ev st1 :
  dispatch ev st = Some (Ok tt st1) ->
  messages st1 = messages st \/
  exists h data m,
    ev = SocketMessage h data /\ sockets st !! h = Some OPEN /\ data <> "pong" /\
    JSON_parse data = Some (JsonObject m) /\ type m <> "subscribed" /\
    mounted st = true /\ messages st1 = push_message m (messages st).
Proof.
  destruct ev as [h|h data|h|h|id|s|]; cbv [dispatch].
  - destruct (sockets st !! h) as [[]|]; try done.
    rewrite onopen_run. intros [= <-]. by left.
  - destruct (sockets st !! h) as [[]|] eqn:Hh; try done.
    unfold onmessage, try_catch, bind, ret, raise, setMessages, console_error, emit, modify.
    case_bool_decide as Hpong; [intros [= <-]; by left|].
    destruct (JSON_parse data) as [[|m]|] eqn:Hparse; try (intros [= <-]; by left).
    case_bool_decide as Hty; [intros [= <-]; by left|].
    destruct (mounted st) eqn:Hm; intros [= <-]; [|by left].
    right. by exists h, data, m.
  - destruct (sockets st !! h); [|done]. intros [= <-]. by left.
  - destruct (sockets st !! h) as [[]|]; try done;
      rewrite onclose_run; intros [= <-]; by left.
  - destruct (timers st !! id) as [[ms|ms]|]; [| |done].
    + rewrite ping_run. intros [= <-]. destruct (current_open st); by left.
    + rewrite connect_run. intros [= <-]. destruct (WebSocket_rejects url); by left.
  - destruct (mounted st); [|done]. intros [= <-]. by left.
  - destruct (mounted st); [|done]. unfold bind. rewrite cleanup_run. unfold modify.
    intros [= <-]. by left.
Qed.

Lemma push_message_length m prev : length (push_message m prev) <= 501.
Proof.
  unfold push_message, slice_from_end. rewrite length_app, length_drop. simpl. lia.
Qed.

(** The window changes in one way only: a frame other than pong arrives on
    an open socket of the mounted page, parses to an object that is not a
    subscription confirmation, and goes through the updater.  No other event
    touches it. *)
Theorem window_changes_only_on_data_frames (st : state) (ev : event) (st' : state) :
  step st ev = Some st' ->
  messages st' = messages st \/
  exists h data m,
    ev = SocketMessage h data /\ sockets st !! h = Some OPEN /\ data <> "pong" /\
    JSON_parse data = Some (JsonObject m) /\ type m <> "subscribed" /\
    mounted st = true /\ messages st' = push_message m (messages st).
Proof.
  intros (st1 & tr & Hd & -> & _)%step_inv. simpl.
  by apply dispatch_messages in Hd.
Qed.

(** In every reachable state the window holds at most 501 events, and no
    subscription confirmation is among them. *)
Theorem window_bounded_and_free_of_acks (st : state) :
  reachable st ->
  length (messages st) <= 501 /\
  Forall (fun m => type m <> "subscribed") (messages st).
Proof.
  induction 1 as [st Hmount|st ev st' Hr [IHlen IHack] Hstep].
  - unfold mount in Hmount. rewrite connect_run in Hmount. injection Hmount as <-.
    destruct (WebSocket_rejects url); simpl; split; (lia || constructor).
  - apply step_inv in Hstep as (st1 & tr & Hd & -> & _). simpl.
    apply dispatch_messages in Hd as [->|(h & data & m & _ & _ & _ & _ & Hty & _ & ->)];
      [done|].
    split; [apply push_message_length|].
    unfold push_message, slice_from_end. apply Forall_app. split.
    + by apply Forall_drop.
    + by constructor.
Qed.

(** *** Reconnection *)

Lemma dispatch_mounted st ev st1 :
  dispatch ev st = Some (Ok tt st1) ->
  (ev <> Unmount /\ mounted st1 = mounted st) \/ (ev = Unmount /\ mounted st1 = false).
Proof.
  destruct ev as [h|h data|h|h|id|s|]; cbv [dispatch].
  - destruct (sockets st !! h) as [[]|]; try done.
    rewrite onopen_run. intros [= <-]. by left.
  - destruct (sockets st !! h) as [[]|]; try done.
    destruct (onmessage_run data st) as (msgs & tr & -> & _). intros [= <-]. by left.
  - destruct (sockets st !! h); [|done]. intros [= <-]. by left.
  - destruct (sockets st !! h) as [[]|]; try done;
      rewrite onclose_run; intros [= <-]; by left.
  - destruct (timers st !! id) as [[ms|ms]|]; [| |done].
    + rewrite ping_run. intros [= <-]. destruct (current_open st); by left.
    + rewrite connect_run. intros [= <-]. destruct (WebSocket_rejects url); by left.
  - destruct (mounted st) eqn:Hm; [|done]. intros [= <-]. left. simpl. by rewrite Hm.
  - destruct (mounted st) eqn:Hm; [|done]. unfold bind. rewrite cleanup_run. unfold modify.
    intros [= <-]. by right.
Qed.

Lemma dispatch_retry_pending st ev st1 :
  wf st -> retry_pending st -> dispatch ev st = Some (Ok tt st1) -> retry_pending st1.
Proof.
  intros Hwf Hp Hd Hm1.
  destruct (dispatch_mounted _ _ _ Hd) as [[Hev Hm]|[_ Hm]]; [|congruence].
  rewrite Hm1 in Hm. symmetry in Hm. specialize (Hp Hm).
  revert Hd. destruct ev as [h|h data|h|h|id|s|]; try done; cbv [dispatch].
  - destruct (sockets st !! h) as [[]|] eqn:Hh; try done.
    rewrite onopen_run. intros [= <-]. left. exists h, OPEN. simpl.
    split; [|done]. apply list_lookup_insert_eq. by eapply lookup_lt_Some.
  - destruct (sockets st !! h) as [[]|]; try done.
    destruct (onmessage_run data st) as (msgs & tr & -> & _). by intros [= <-].
  - destruct (sockets st !! h); [|done]. by intros [= <-].
  - destruct (sockets st !! h) as [[]|]; try done;
      rewrite onclose_run; intros [= <-]; right; exists (nextTimer st); simpl;
      by rewrite lookup_insert_eq.
  - destruct (timers st !! id) as [[ms|ms]|] eqn:Hid; [| |done].
    + rewrite ping_run. intros [= <-]. by destruct (current_open st).
    + rewrite connect_run. intros [= <-].
      destruct (WebSocket_rejects url); simpl.
      * right. exists (nextTimer st). by rewrite lookup_insert_eq.
      * left. exists (length (sockets st)), CONNECTING.
        split; [|done]. by rewrite list_lookup_middle.
  - destruct (mounted st); [|done]. by intros [= <-].
Qed.

Lemma reachable_retry_pending st : reachable st -> retry_pending st.
Proof.
  induction 1 as [st Hmount|st ev st' Hr IH Hstep].
  - unfold mount in Hmount. rewrite connect_run in Hmount. injection Hmount as <-.
    intros _. destruct (WebSocket_rejects url); simpl.
    + right. exists 0. by rewrite lookup_insert_eq.
    + left. by exists 0, CONNECTING.
  - apply step_inv in Hstep as (st1 & tr & Hd & -> & _).
    pose proof (dispatch_retry_pending _ _ _ (reachable_wf _ Hr) IH Hd) as Hp.
    intros Hm. apply Hp in Hm. done.
Qed.

Lemma live_at_least_one (l : list ReadyState) h rs :
  l !! h = Some rs -> rs <> CLOSED -> 1 <= length (List.filter is_live l).
Proof.
  revert h. induction l as [|a l IH]; intros [|h]; simpl; try done.
  - intros [= ->] Hne. destruct rs; simpl; try done; lia.
  - intros Hl Hne. specialize (IH _ Hl Hne). destruct (is_live a); simpl; lia.
Qed.

(** While the page is mounted the hook is never left without a way back:
    in every reachable state either exactly one socket is live and no
    reconnect is pending, or no socket is live and exactly one timer is
    armed, a reconnect timeout of 3000 ms whose id the ref holds. *)
Theorem reconnect_always_pending (st : state) :
  reachable st -> mounted st = true ->
  (live_sockets st = 1 /\ forall id ms, timers st !! id <> Some (Timeout ms)) \/
  (live_sockets st = 0 /\
   exists id, timers st = {[ id := Timeout 3000 ]} /\ reconnectTimeout st = Some id).
Proof.
  intros Hr Hm. pose proof (reachable_wf _ Hr) as (H1 & H2 & H3 & H4 & H5).
  destruct (reachable_retry_pending _ Hr Hm) as [(h & rs & Hh & Hne)|(id & Hid)].
  - left. split.
    + pose proof (live_at_least_one _ _ _ Hh Hne).
      pose proof (live_at_most_one (sockets st) (ws st) 0) as Hle.
      unfold live_sockets. enough (length (List.filter is_live (sockets st)) <= 1) by lia.
      apply Hle. intros h' rs' Hl' Hne'. simpl. by eapply H1.
    + intros id ms Hid. destruct (H2 _ _ Hid) as (_ & _ & Hall).
      by specialize (Hall _ _ Hh).
  - right. destruct (H2 _ _ Hid) as (Hrt & _ & Hall). split.
    + unfold live_sockets. by rewrite filter_live_nil.
    + exists id. split; [|done]. apply map_eq. intros id'.
      destruct (decide (id' = id)) as [->|Hneq].
      * by rewrite lookup_singleton_eq.
      * rewrite lookup_singleton_ne by done.
        destruct (timers st !! id') as [[ms|ms]|] eqn:E; [| |done].
        -- destruct (H3 _ _ E) as (_ & _ & [h Ho]).
           rewrite (current_open_None_closed _ Hall) in Ho. done.
        -- destruct (H2 _ _ E) as (Hrt' & _). congruence.
Qed.

(** *** Subscriptions while connected *)

Lemma select_step st h s :
  wf st -> mounted st = true -> current_open st = Some h ->
  step st (SelectSymbol s) =
  Some (if String.eqb s (selectedSymbol st) || String.eqb s ""
        then set_selectedSymbol s st
        else set_trace (trace st ++ [SocketSend h (subscribe_add_frame s)])
                       (set_selectedSymbol s st)).
Proof.
  intros (_ & _ & _ & _ & H5) Hm Ho.
  assert (Hi : isConnected st = true) by (apply H5; [done|by eexists]).
  unfold step. cbv [dispatch]. rewrite Hm.
  unfold subscription_effect, bind, get. simpl. rewrite Hm, Hi. simpl.
  rewrite (String.eqb_sym (selectedSymbol st) s).
  destruct (String.eqb s (selectedSymbol st)) eqn:Hsame; simpl; [done|].
  destruct (String.eqb s "") eqn:Hempty; simpl; [done|].
  rewrite subscribe_run.
  assert (Ho' : current_open (set_selectedSymbol s st) = Some h) by done.
  by rewrite Ho'.
Qed.

(** While the page is connected, picking another symbol sends exactly one
    frame, the subscription request for that symbol, on the current socket;
    picking the symbol already shown, or the empty symbol, sends nothing. *)
Theorem symbol_change_subscribes_once (st : state) (h : nat) (s : string) :
  reachable st -> mounted st = true -> current_open st = Some h ->
  exists st',
    step st (SelectSymbol s) = Some st' /\
    selectedSymbol st' = s /\
    new_effects st st' =
      if String.eqb s (selectedSymbol st) || String.eqb s ""
      then []
      else [SocketSend h (subscribe_add_frame s)].
Proof.
  intros Hwf%reachable_wf Hm Ho. rewrite (select_step _ _ _ Hwf Hm Ho).
  eexists. split; [done|].
  destruct (String.eqb s (selectedSymbol st) || String.eqb s ""); simpl.
  - split; [done|]. apply new_effects_app. simpl. by rewrite app_nil_r.
  - split; [done|]. by apply new_effects_app.
Qed.

(** *** After the unmount *)

Lemma dispatch_unmounted st ev st1 :
  mounted st = false -> dispatch ev st = Some (Ok tt st1) ->
  isConnected st1 = isConnected st /\ selectedSymbol st1 = selectedSymbol st.
Proof.
  intros Hm. destruct ev as [h|h data|h|h|id|s|]; cbv [dispatch].
  - destruct (sockets st !! h) as [[]|]; try done.
    rewrite onopen_run. intros [= <-]. simpl. by rewrite Hm.
  - destruct (sockets st !! h) as [[]|]; try done.
    destruct (onmessage_run data st) as (msgs & tr & -> & _). by intros [= <-].
  - destruct (sockets st !! h); [|done]. by intros [= <-].
  - destruct (sockets st !! h) as [[]|]; try done;
      rewrite onclose_run; intros [= <-]; simpl; by rewrite Hm.
  - destruct (timers st !! id) as [[ms|ms]|]; [| |done].
    + rewrite ping_run. intros [= <-]. by destruct (current_open st).
    + rewrite connect_run. intros [= <-]. by destruct (WebSocket_rejects url).
  - by rewrite Hm.
  - by rewrite Hm.
Qed.

(** Once the component is unmounted it stays unmounted, its React state
    (window, connection flag, selected symbol) no longer changes, and the
    only frames the sockets that outlive it are handed are pings: no
    subscription request is ever sent again. *)
Theorem unmounted_page_only_pings (st : state) (ev : event) (st' : state) :
  mounted st = false -> step st ev = Some st' ->
  mounted st' = false /\
  messages st' = messages st /\
  isConnected st' = isConnected st /\
  selectedSymbol st' = selectedSymbol st /\
  forall h d, In (SocketSend h d) (new_effects st st') -> d = "ping".
Proof.
  intros Hm Hstep.
  destruct (step_trace _ _ _ Hstep) as (tr & Htr & Hsend).
  rewrite (new_effects_app _ _ _ Htr).
  apply step_inv in Hstep as (st1 & tr2 & Hd & -> & _). simpl in *.
  assert (Hm1 : mounted st1 = false).
  { destruct (dispatch_mounted _ _ _ Hd) as [[_ ->]|[_ ->]]; done. }
  destruct (dispatch_unmounted _ _ _ Hm Hd) as (Hi & Hs).
  split; [done|]. split.
  - destruct (dispatch_messages _ _ _ Hd) as [|(? & ? & ? & _ & _ & _ & _ & _ & Hm' & _)];
      [done|congruence].
  - split; [done|]. split; [done|].
    intros h d [(-> & _)|(_ & _ & _ & Hm' & _)]%Hsend; [done|]. simpl in Hm'. congruence.
Qed.

End UseWebSocketFurther.

(** * Properties of the requests *)

Lemma string_app_nil (b : string) : "" +:+ b = b.
Proof. reflexivity. Qed.

Lemma string_app_cons (c : ascii) (a b : string) : String c a +:+ b = String c (a +:+ b).
Proof. reflexivity. Qed.

Lemma string_app_assoc (a b c : string) : (a +:+ b) +:+ c = a +:+ (b +:+ c).
Proof.
  induction a as [|x a IH]; [done|]. rewrite !string_app_cons. by rewrite IH.
Qed.

Lemma string_app_nil_r (a : string) : a +:+ "" = a.
Proof. induction a as [|x a IH]; [done|]. rewrite string_app_cons. by rewrite IH. Qed.

Lemma string_app_inj_l (p a b : string) : p +:+ a = p +:+ b -> a = b.
Proof.
  induction p as [|x p IH]; [done|]. rewrite !string_app_cons. intros [= Heq]. by apply IH.
Qed.

Lemma string_app_length (a b : string) :
  String.length (a +:+ b) = String.length a + String.length b.
Proof.
  induction a as [|c a IH]; [done|]. rewrite string_app_cons. simpl. by rewrite IH.
Qed.

Lemma string_app_inj_r (a b t : string) : a +:+ t = b +:+ t -> a = b.
Proof.
  revert b. induction a as [|c a IH]; intros [|d b]; [done| | |].
  - intros Heq. apply (f_equal String.length) in Heq.
    rewrite !string_app_length in Heq. simpl in Heq. lia.
  - intros Heq. apply (f_equal String.length) in Heq.
    rewrite !string_app_length in Heq. simpl in Heq. lia.
  - rewrite !string_app_cons. intros [= -> Heq]. f_equal. by apply IH.
Qed.

Lemma json_unescape_escape (c : ascii) (rest : string) :
  json_unescape (json_escape c +:+ rest) = String c <$> json_unescape rest.
Proof.
  destruct c as [[] [] [] [] [] [] [] []]; reflexivity.
Qed.

Lemma json_unescape_escape_string (s rest : string) :
  json_unescape (json_escape_string s +:+ rest) = (fun r => s +:+ r) <$> json_unescape rest.
Proof.
  induction s as [|c s IH].
  - change (json_escape_string "") with "". rewrite string_app_nil.
    by destruct (json_unescape rest).
  - change (json_escape_string (String c s)) with (json_escape c +:+ json_escape_string s).
    rewrite string_app_assoc, json_unescape_escape, IH.
    by destruct (json_unescape rest).
Qed.

Lemma json_escape_string_inj (s1 s2 t : string) :
  is_Some (json_unescape t) ->
  json_escape_string s1 +:+ t = json_escape_string s2 +:+ t -> s1 = s2.
Proof.
  intros [r Hr] Heq. apply (f_equal json_unescape) in Heq.
  rewrite !json_unescape_escape_string, Hr in Heq. simpl in Heq.
  injection Heq as Heq. by apply string_app_inj_r in Heq.
Qed.

Lemma JSON_stringify_string_app (s t : string) :
  JSON_stringify_string s +:+ t = String dquote (json_escape_string s +:+ String dquote t).
Proof.
  unfold JSON_stringify_string. rewrite string_app_cons. f_equal.
  by rewrite string_app_assoc.
Qed.

(** What [JSON.stringify] writes for a string reads back as that string, so
    two symbols never give the same subscription request: quotes, backslashes
    and control characters in a symbol cannot make its request pass for that
    of another symbol. *)
Theorem subscribe_add_frame_faithful (s1 s2 : string) :
  json_unescape (json_escape_string s1) = Some s1 /\
  (subscribe_add_frame s1 = subscribe_add_frame s2 -> s1 = s2) /\
  (JSON_stringify_string s1 = JSON_stringify_string s2 -> s1 = s2).
Proof.
  split; [|split].
  - rewrite <- (string_app_nil_r (json_escape_string s1)) at 1.
    rewrite json_unescape_escape_string. simpl. by rewrite string_app_nil_r.
  - unfold subscribe_add_frame. intros Heq.
    do 7 apply string_app_inj_l in Heq.
    rewrite !JSON_stringify_string_app in Heq. injection Heq as Heq.
    by apply json_escape_string_inj in Heq.
  - intros Heq. apply (f_equal (fun x => x +:+ "")) in Heq.
    rewrite !JSON_stringify_string_app in Heq. injection Heq as Heq.
    by apply json_escape_string_inj in Heq.
Qed.

(** * Properties of the other requests, the URL, the panels and the tabs *)

(** ** The three subscription requests *)

Section Requests.

Context `{Runtime}.

Lemma subscribeMany_run symbols st :
  subscribeMany symbols st =
  Ok tt (match current_open st with
         | Some h => set_trace (trace st ++ [SocketSend h (subscribe_frame symbols)]) st
         | None => st
         end).
Proof.
  unfold subscribeMany, bind, get. destruct (current_open st) as [h|] eqn:E; [|done].
  by apply send_current_open.
Qed.

Lemma subscribeAll_run st :
  subscribeAll st =
  Ok tt (match current_open st with
         | Some h => set_trace (trace st ++ [SocketSend h subscribe_all_frame]) st
         | None => st
         end).
Proof.
  unfold subscribeAll, bind, get. destruct (current_open st) as [h|] eqn:E; [|done].
  by apply send_current_open.
Qed.

(** Each of the three subscription functions the hook returns completes
    normally in every state: it hands exactly one frame to the current
    socket when that socket is open and does nothing otherwise, so a call
    while the socket is still connecting does not throw.  The three frames
    are told apart by their action whatever the symbols are, and none of
    them is the keepalive frame. *)
Theorem subscription_requests_guarded
  (st : state) (symbol0 : string) (symbols : list string) :
  subscribe symbol0 st =
    Ok tt (match current_open st with
           | Some h => set_trace (trace st ++ [SocketSend h (subscribe_add_frame symbol0)]) st
           | None => st
           end) /\
  subscribeMany symbols st =
    Ok tt (match current_open st with
           | Some h => set_trace (trace st ++ [SocketSend h (subscribe_frame symbols)]) st
           | None => st
           end) /\
  subscribeAll st =
    Ok tt (match current_open st with
           | Some h => set_trace (trace st ++ [SocketSend h subscribe_all_frame]) st
           | None => st
           end) /\
  subscribe_add_frame symbol0 <> subscribe_frame symbols /\
  subscribe_add_frame symbol0 <> subscribe_all_frame /\
  subscribe_frame symbols <> subscribe_all_frame /\
  subscribe_frame symbols <> "ping" /\
  subscribe_all_frame <> "ping".
Proof.
  split; [apply subscribe_run|]. split; [apply subscribeMany_run|].
  split; [apply subscribeAll_run|].
  unfold subscribe_add_frame, subscribe_frame, subscribe_all_frame.
  repeat split; intros Heq; cbv in Heq; discriminate.
Qed.

(** A socket error on its own only writes to the console: the connection
    flag, the sockets, the timers and the window stay as they are, and no
    reconnect is scheduled by the error handler. *)
Theorem socket_error_only_logs (st st' : state) (h : nat) :
  step st (SocketError h) = Some st' ->
  st' = set_trace (trace st ++ [ConsoleError "WebSocket error:"]) st.
Proof.
  unfold step. cbv [dispatch]. destruct (sockets st !! h); [|done].
  unfold onerror, console_error, emit, modify.
  unfold subscription_effect, bind, get. simpl.
  rewrite Bool.eqb_reflx, String.eqb_refl. simpl. rewrite andb_false_r.
  by intros [= <-].
Qed.

End Requests.

(** ** The socket URL *)

Lemma substring_all (s : string) : String.substring 0 (String.length s) s = s.
Proof. induction s as [|c s IH]; simpl; [reflexivity|by rewrite IH]. Qed.

Lemma WS_BASE_http (rest : string) : WS_BASE ("http" +:+ rest) = "ws" +:+ rest.
Proof.
  unfold WS_BASE. rewrite !string_app_cons, string_app_nil. simpl.
  replace (String.prefix "" rest) with true by (by destruct rest).
  by rewrite Nat.sub_0_r, substring_all, string_app_nil.
Qed.

(** The socket URL is the API URL with a leading [http] replaced by [ws]:
    an [http://] API gives a [ws://] socket and an [https://] API a
    [wss://] one; an API URL that does not start with [http] is used as it
    is; the result never starts with [http]; without [VITE_API_URL], or with
    an empty one, the socket is [ws://localhost:8000/ws]. *)
Theorem WS_BASE_swaps_scheme (rest api_base : string) :
  WS_BASE ("http://" +:+ rest) = "ws://" +:+ rest /\
  WS_BASE ("https://" +:+ rest) = "wss://" +:+ rest /\
  (String.prefix "http" api_base = false -> WS_BASE api_base = api_base) /\
  String.prefix "http" (WS_BASE api_base) = false /\
  App_url None = "ws://localhost:8000/ws" /\
  App_url (Some "") = "ws://localhost:8000/ws".
Proof.
  split; [apply (WS_BASE_http ("://" +:+ rest))|].
  split; [apply (WS_BASE_http ("s://" +:+ rest))|].
  split; [by unfold WS_BASE; intros ->|].
  split; [|split; reflexivity].
  unfold WS_BASE. destruct (String.prefix "http" api_base) eqn:E; [|done].
  rewrite !string_app_cons. reflexivity.
Qed.

(** ** The feed, the signal panel and the chart *)

Lemma newest_first {A} (f : A -> bool) (n : nat) (data : list A) :
  reverse (slice_from_end n (List.filter f data)) = take n (reverse (List.filter f data)) /\
  length (reverse (slice_from_end n (List.filter f data)))
    = min n (length (List.filter f data)) /\
  (0 < n ->
   head (reverse (slice_from_end n (List.filter f data))) = last (List.filter f data)) /\
  (0 < n ->
   (reverse (slice_from_end n (List.filter f data)) = [] <-> List.filter f data = [])) /\
  Forall (fun m => f m = true /\ In m data) (reverse (slice_from_end n (List.filter f data))).
Proof.
  assert (Hrev : reverse (slice_from_end n (List.filter f data))
                 = take n (reverse (List.filter f data))).
  { unfold slice_from_end. by rewrite take_reverse. }
  rewrite Hrev. split; [done|]. split; [|split; [|split]].
  - by rewrite length_take, length_reverse.
  - intros Hn. destruct n as [|n]; [lia|].
    rewrite <- head_reverse. by destruct (reverse (List.filter f data)).
  - intros Hn. destruct n as [|n]; [lia|]. split.
    + intros Hnil. apply (f_equal length) in Hnil.
      rewrite length_take, length_reverse in Hnil.
      change (length (@nil A)) with 0 in Hnil. apply nil_length_inv. lia.
    + by intros ->.
  - apply Forall_take, Forall_reverse, Forall_forall. intros m Hm%list_elem_of_In.
    apply filter_In in Hm. tauto.
Qed.

(** The sentiment feed lists the 15 most recent sentiment events of the
    window, newest first, and nothing else; the count in its header is the
    number of sentiment events capped at 15, and the feed shows its
    placeholder exactly when the window holds no sentiment event. *)
Theorem SentimentFeed_lists_latest_15 (data : list message) :
  SentimentFeed.filteredData data = take 15 (reverse (List.filter is_sentiment data)) /\
  length (SentimentFeed.filteredData data) = min 15 (length (sentiment_scores data)) /\
  head (SentimentFeed.filteredData data) = last (List.filter is_sentiment data) /\
  (SentimentFeed.filteredData data = [] <-> sentiment_scores data = []) /\
  Forall (fun m => type m = "sentiment" /\ In m data) (SentimentFeed.filteredData data).
Proof.
  unfold SentimentFeed.filteredData, sentiment_scores.
  destruct (newest_first is_sentiment 15 data) as (H1 & H2 & H3 & H4 & H5).
  split; [done|]. split; [by rewrite length_map|]. split; [apply H3; lia|]. split.
  - rewrite H4 by lia. by destruct (List.filter is_sentiment data).
  - eapply Forall_impl; [apply H5|]. intros m [Hm ?]. split; [|done].
    by apply String.eqb_eq.
Qed.

(** The signal panel lists the 10 most recent signals of the window, newest
    first, whatever their symbol, while the stats count all of them: the
    panel holds min(10, totalSignals) entries and is empty exactly when
    totalSignals is 0. *)
Theorem SignalPanel_lists_latest_10 (data : list message) (sym cur : string) :
  SignalPanel.signals data = take 10 (reverse (List.filter is_signal data)) /\
  length (SignalPanel.signals data) = min 10 (totalSignals (stats data sym cur)) /\
  head (SignalPanel.signals data) = last (List.filter is_signal data) /\
  (SignalPanel.signals data = [] <-> totalSignals (stats data sym cur) = 0) /\
  Forall (fun m => type m = "signal" /\ In m data) (SignalPanel.signals data).
Proof.
  unfold SignalPanel.signals, stats. simpl.
  destruct (newest_first is_signal 10 data) as (H1 & H2 & H3 & H4 & H5).
  split; [done|]. split; [done|]. split; [apply H3; lia|]. split.
  - rewrite H4 by lia. by destruct (List.filter is_signal data).
  - eapply Forall_impl; [apply H5|]. intros m [Hm ?]. split; [|done].
    by apply String.eqb_eq.
Qed.

Lemma map_point (l : list message) : map MarketChart.point l = l.
Proof.
  induction l as [|m l IH]; [done|]. simpl. rewrite IH. by destruct m.
Qed.

Lemma last_slice_from_end {A} (n : nat) (l : list A) :
  0 < n -> last (slice_from_end n l) = last l.
Proof.
  intros Hn. unfold slice_from_end. rewrite !last_lookup, lookup_drop, length_drop.
  destruct l as [|x l]; [done|]. simpl. f_equal. lia.
Qed.

Lemma latestPrice_last (window : list message) (sym cur : string) :
  latestPrice (stats window sym cur) = price <$> last (matching_market window sym).
Proof.
  unfold stats, matching_market. simpl.
  by rewrite price_from_end_reverse, <- head_lookup, head_reverse.
Qed.

(** The chart and the stats bar read the same ticks: the chart plots the 50
    most recent ticks of the selected symbol in arrival order, so it holds
    min(50, totalDataPoints) points, it is empty exactly when the stats have
    no latest price, and the price of its last point is the latest price of
    the stats. *)
Theorem MarketChart_agrees_with_stats (data : list message) (sym cur : string) :
  MarketChart.filteredData data sym = slice_from_end 50 (matching_market data sym) /\
  length (MarketChart.filteredData data sym) = min 50 (totalDataPoints (stats data sym cur)) /\
  (MarketChart.filteredData data sym = [] <-> latestPrice (stats data sym cur) = None) /\
  price <$> last (MarketChart.filteredData data sym) = latestPrice (stats data sym cur).
Proof.
  assert (Hf : MarketChart.filteredData data sym
               = slice_from_end 50 (matching_market data sym)).
  { unfold MarketChart.filteredData. by rewrite map_point. }
  rewrite Hf, latestPrice_last. split; [done|]. split; [|split].
  - change (totalDataPoints (stats data sym cur)) with (length (matching_market data sym)).
    unfold slice_from_end. rewrite length_drop. lia.
  - rewrite fmap_None, last_None. unfold slice_from_end. split.
    + intros Hnil. apply (f_equal length) in Hnil. rewrite length_drop in Hnil.
      change (length (@nil message)) with 0 in Hnil. apply nil_length_inv. lia.
    + by intros ->.
  - by rewrite last_slice_from_end by lia.
Qed.

(** ** The stats bar *)

(** The stats bar shows its placeholders exactly when the window holds no
    tick of the selected symbol: the dash for the price and [Waiting...] for
    the change; with fewer than two ticks the change is shown as neutral and
    without a sign.  With no sentiment event the mean is shown as the dash
    and labelled Neutral, and so is a mean of exactly 0 over sentiment
    events that are there. *)
Theorem StatsBar_placeholders (window : list message) (sym cur : string) :
  (StatsBar.priceValue (stats window sym cur) = StatsBar.Literal "—"
   <-> matching_market window sym = []) /\
  (StatsBar.changeText (stats window sym cur) = StatsBar.Literal "Waiting..."
   <-> matching_market window sym = []) /\
  (length (matching_market window sym) < 2 ->
   StatsBar.changeClass (priceChange (stats window sym cur)) = StatsBar.neutral /\
   StatsBar.changeSign (priceChange (stats window sym cur)) = "") /\
  (sentiment_scores window = [] ->
   StatsBar.sentimentValue (stats window sym cur) = StatsBar.Literal "—" /\
   StatsBar.sentimentLabel (avgSentiment (stats window sym cur)) = "Neutral" /\
   StatsBar.sentimentClass (avgSentiment (stats window sym cur)) = StatsBar.neutral) /\
  StatsBar.sentimentValue (stats [Sentiment 0.5; Sentiment (-0.5)] sym cur)
    = StatsBar.Literal "—".
Proof.
  split; [|split; [|split; [|split]]].
  - unfold StatsBar.priceValue. rewrite latestPrice_last.
    destruct (last (matching_market window sym)) as [m|] eqn:E; simpl.
    + split; [done|]. intros Hnil. by rewrite Hnil in E.
    + split; [|done]. intros _. by apply last_None.
  - unfold StatsBar.changeText. rewrite latestPrice_last.
    destruct (last (matching_market window sym)) as [m|] eqn:E; simpl.
    + split; [done|]. intros Hnil. by rewrite Hnil in E.
    + split; [|done]. intros _. by apply last_None.
  - intros Hlen. rewrite priceChange_stats.
    rewrite (lookup_ge_None_2 (reverse (matching_market window sym)) 1)
      by (rewrite length_reverse; lia).
    unfold price_change. simpl. rewrite andb_false_r. by split.
  - unfold sentiment_scores. intros Hnil%map_eq_nil.
    unfold StatsBar.sentimentValue, stats. simpl. rewrite Hnil. by repeat split.
  - reflexivity.
Qed.

(** ** The category tabs *)

Section AppProperties.

Context `{Runtime}.

Lemma select_symbol_step st s st' :
  step st (SelectSymbol s) = Some st' ->
  selectedSymbol st' = s /\ messages st' = messages st /\ mounted st' = true.
Proof.
  intros Hstep. apply step_inv in Hstep as (st1 & tr & Hd & -> & _).
  revert Hd. cbv [dispatch]. destruct (mounted st) eqn:Hm; [|done].
  by intros [= <-].
Qed.

(** A click on a category tab selects the category and leaves the
    catalogue as it is.  When the category has assets, the first of them
    becomes the selected symbol; when the catalogue has no such category, or
    the category lists no asset, the symbol that was selected stays selected
    although it no longer belongs to the tab.  The window is kept across the
    switch, and the currency given to the panels is never empty. *)
Theorem category_change_selects_first_asset (cat : string) (a a' : app) :
  handleCategoryChange cat a = Some a' ->
  selectedCategory a' = cat /\
  tickers a' = tickers a /\
  messages (hook a') = messages (hook a) /\
  match currentAssets a' with
  | x :: _ => selectedSymbol (hook a') = asset_symbol x
  | [] => hook a' = hook a
  end /\
  currentCurrency a' <> "".
Proof.
  unfold handleCategoryChange. destruct (mounted (hook a)); [|done].
  assert (Hcur : forall b, currentCurrency b <> "").
  { intros b. unfold currentCurrency.
    destruct (category_of b (selectedCategory b)) as [c|]; [|done].
    destruct (category_currency c) as [cu|]; [|done].
    destruct (String.eqb cu "") eqn:E; [done|]. by apply String.eqb_neq. }
  unfold first_symbol, currentAssets, category_of.
  destruct (tickers a) as [t|] eqn:Ht; simpl.
  - destruct (t !! cat) as [c|] eqn:Hc; simpl.
    + destruct (assets c) as [[|x rest]|] eqn:Ha; simpl.
      * intros [= <-]. simpl. rewrite ?Ht, ?Hc, ?Ha. by repeat split.
      * destruct (step (hook a) (SelectSymbol (asset_symbol x))) as [st'|] eqn:Hs; [|done].
        intros [= <-]. simpl. rewrite ?Ht, ?Hc, ?Ha. simpl.
        destruct (select_symbol_step _ _ _ Hs) as (? & ? & ?). by repeat split.
      * intros [= <-]. simpl. rewrite ?Ht, ?Hc, ?Ha. by repeat split.
    + intros [= <-]. simpl. rewrite ?Ht, ?Hc. by repeat split.
  - intros [= <-]. simpl. rewrite ?Ht. by repeat split.
Qed.

(** While the page is connected, a click on a tab whose category has assets
    sends one subscription request, for the first asset of the category, on
    the current socket; it sends nothing when that asset is the symbol
    already selected. *)
Theorem category_change_subscribes_first_asset
  (cat : string) (a : app) (h : nat) (c : category) (x : asset) (rest : list asset) :
  reachable (hook a) -> mounted (hook a) = true -> current_open (hook a) = Some h ->
  category_of a cat = Some c -> assets c = Some (x :: rest) ->
  exists a',
    handleCategoryChange cat a = Some a' /\
    currentAssets a' = x :: rest /\
    selectedSymbol (hook a') = asset_symbol x /\
    new_effects (hook a) (hook a') =
      if String.eqb (asset_symbol x) (selectedSymbol (hook a))
         || String.eqb (asset_symbol x) ""
      then []
      else [SocketSend h (subscribe_add_frame (asset_symbol x))].
Proof.
  intros Hwf%reachable_wf Hm Ho Hc Ha.
  unfold handleCategoryChange, first_symbol. rewrite Hm, Hc, Ha.
  rewrite (select_step _ _ _ Hwf Hm Ho). eexists. split; [done|].
  split.
  { unfold currentAssets. simpl. unfold category_of in *. simpl. by rewrite Hc, Ha. }
  simpl.
  destruct (String.eqb (asset_symbol x) (selectedSymbol (hook a))
            || String.eqb (asset_symbol x) ""); simpl.
  - split; [done|]. apply new_effects_app. simpl. by rewrite app_nil_r.
  - split; [done|]. by apply new_effects_app.
Qed.

End AppProperties.

(** * The hook on the small runtime *)

#[local] Existing Instance demo_runtime.

(** Every state the small runtime runs into is reachable. *)
Lemma demo_reachable evs : is_Some (demo_run evs) -> reachable (default initial (demo_run evs)).
Proof.
  intros [st Hst]. rewrite Hst. simpl. unfold demo_run in Hst.
  destruct (connect initial) as [[] st0|] eqn:Hmount; [|done].
  eapply run_reachable; [|exact Hst]. by apply reachable_mount.
Qed.

(** The replay on the small runtime: ETH, close, SOL while offline, the
    reconnect timeout, open. *)
Lemma subscription_replay_witness :
  (forall k stk,
      run demo_eth (take k (SocketClosed 0 :: [] ++ SelectSymbol "SOL" :: [TimerFired 1]))
        = Some stk ->
      sent (trace stk) = sent (trace demo_eth) /\
      (0 < k -> connectionState stk <> Connected)) /\
  sent (trace demo_replayed) =
    sent (trace demo_eth) ++ [(1, wire "{'action':'subscribe_add','symbol':'SOL'}")] /\
  connectionState demo_replayed = Connected.
Proof.
  apply (subscription_replay demo_eth 0 1 [] [TimerFired 1] demo_replayed);
    try (vm_compute; reflexivity).
  apply demo_reachable. vm_compute. eauto.
Defined.

(** C4, as stated: a call to connect while Connecting, and one while
    Connected, each leave one more live socket handle than before. *)
Lemma connect_not_idempotent_counterexample :
  (connectionState demo_connecting = Connecting /\
   live_sockets (store_of (connect demo_connecting)) <> live_sockets demo_connecting) /\
  (connectionState demo_connected = Connected /\
   live_sockets (store_of (connect demo_connected)) <> live_sockets demo_connected).
Proof. vm_compute. repeat split; discriminate. Qed.

(** A direct call to connect on the connected page. *)
Lemma connect_unguarded_witness :
  (exists st', connect demo_connected = Ok tt st' /\
               live_sockets st' = S (live_sockets demo_connected) /\
               sockets st' = sockets demo_connected ++ [CONNECTING] /\
               ws st' = Some (length (sockets demo_connected))) /\
  (forall id ms, timers demo_connected !! id = Some (Timeout ms) ->
                 live_sockets demo_connected = 0) /\
  live_sockets demo_connected <= 1.
Proof.
  apply (connect_unguarded demo_connected); [|reflexivity].
  apply demo_reachable. vm_compute. eauto.
Defined.

(** The keepalive interval of the connected page fires. *)
Lemma keepalive_guarded_witness :
  exists st', step demo_connected (TimerFired 0) = Some st' /\
              same_core demo_connected st' /\
              new_effects demo_connected st' = [SocketSend 0 "ping"].
Proof.
  exact (proj1 (proj2 (keepalive_guarded demo_connected)) 0 25000%Z eq_refl).
Defined.

(** A pong, a frame that is not JSON and a subscription confirmation arrive
    on the connected page. *)
Lemma control_and_malformed_frames_dropped_witness :
  (forall h, sockets demo_connected !! h = Some OPEN ->
     exists st', step demo_connected (SocketMessage h "pong") = Some st' /\
                 messages st' = messages demo_connected) /\
  (forall h, sockets demo_connected !! h = Some OPEN ->
     exists st', step demo_connected (SocketMessage h "{not json") = Some st' /\
                 messages st' = messages demo_connected) /\
  (forall h, sockets demo_connected !! h = Some OPEN ->
     exists st', step demo_connected
                   (SocketMessage h (wire "{'type':'subscribed','symbol':'BTC'}")) = Some st' /\
                 messages st' = messages demo_connected).
Proof.
  split; [|split].
  - apply (control_and_malformed_frames_dropped "pong" demo_connected). by left.
  - apply (control_and_malformed_frames_dropped "{not json" demo_connected).
    right; left. reflexivity.
  - apply (control_and_malformed_frames_dropped
             (wire "{'type':'subscribed','symbol':'BTC'}") demo_connected).
    right; right. eexists. split; reflexivity.
Defined.

(** C7, as stated: the cleanup clears the keepalive interval before the
    reconnect timeout, not after it. *)
Lemma cleanup_order_counterexample :
  step demo_replayed Unmount = Some demo_unmounted /\
  new_effects demo_replayed demo_unmounted
    = [ClearInterval (Some 2); ClearTimeout (Some 1); SocketClose 1] /\
  new_effects demo_replayed demo_unmounted
    <> [ClearTimeout (Some 1); ClearInterval (Some 2); SocketClose 1].
Proof. vm_compute. repeat split; discriminate. Qed.

(** The unmount of the reconnected page. *)
Lemma cleanup_clears_then_closes_witness :
  new_effects demo_replayed demo_unmounted =
    [ClearInterval (pingInterval demo_replayed); ClearTimeout (reconnectTimeout demo_replayed)]
    ++ match ws demo_replayed with
       | Some h => [SocketClose h]
       | None => []
       end /\
  timers demo_unmounted = ∅ /\
  mounted demo_unmounted = false /\
  connectionState demo_unmounted <> Connected.
Proof.
  apply (cleanup_clears_then_closes demo_replayed demo_unmounted);
    [|vm_compute; reflexivity].
  apply demo_reachable. vm_compute. eauto.
Defined.


(** The window after the events, from the first message to the last. *)
Lemma window_retains_most_recent_501 (events : list message) :
  appends events [] = most_recent 501 events /\
  length (appends events []) = min 501 (length events).
Proof. split; [apply appends_from_empty|apply appends_length]. Qed.

(** C1: the window is meant to hold at most 500 events, the most recent ones;
    after 501 appends to an empty window the code holds all 501 of them, which
    is more than the most recent 500.  So it is on the wire: after 501 market
    frames the window of the connected page has 501 elements. *)
Theorem window_holds_501 (m : message) :
  length (appends (replicate 501 m) []) = 501 /\
  ~ length (appends (replicate 501 m) []) <= 500 /\
  appends (replicate 501 m) [] <> most_recent 500 (replicate 501 m) /\
  exists st,
    run demo_connected
        (replicate 501 (SocketMessage 0 (wire "{'type':'market','symbol':'BTC','price':100}")))
      = Some st /\
    length (messages st) = 501.
Proof.
  assert (Hlen : length (appends (replicate 501 m) []) = 501).
  { rewrite appends_length, length_replicate. reflexivity. }
  split; [done|]. split; [lia|]. split.
  - intros Heq. apply (f_equal length) in Heq. rewrite Hlen in Heq.
    unfold most_recent in Heq. rewrite length_drop, length_replicate in Heq. lia.
  - eexists. split; [vm_compute; reflexivity|]. vm_compute. reflexivity.
Qed.


(** A tick arrives on the connected page. *)
Lemma window_changes_only_on_data_frames_witness :
  messages demo_ticked = messages demo_connected \/
  exists h data m,
    SocketMessage 0 (wire "{'type':'market','symbol':'BTC','price':100}")
      = SocketMessage h data /\
    sockets demo_connected !! h = Some OPEN /\ data <> "pong" /\
    JSON_parse data = Some (JsonObject m) /\ type m <> "subscribed" /\
    mounted demo_connected = true /\
    messages demo_ticked = push_message m (messages demo_connected).
Proof.
  apply (window_changes_only_on_data_frames demo_connected
           (SocketMessage 0 (wire "{'type':'market','symbol':'BTC','price':100}"))
           demo_ticked).
  vm_compute. reflexivity.
Defined.

(** The window after a tick, a confirmation and a frame that does not parse. *)
Lemma window_bounded_and_free_of_acks_witness :
  length (messages demo_fed) <= 501 /\
  Forall (fun m => type m <> "subscribed") (messages demo_fed).
Proof.
  apply (window_bounded_and_free_of_acks demo_fed).
  apply demo_reachable. vm_compute. eauto.
Defined.

(** After the socket closed, the reconnect is the one timer armed. *)
Lemma reconnect_always_pending_witness :
  (live_sockets demo_offline = 1 /\
   forall id ms, timers demo_offline !! id <> Some (Timeout ms)) \/
  (live_sockets demo_offline = 0 /\
   exists id, timers demo_offline = {[ id := Timeout 3000 ]} /\
              reconnectTimeout demo_offline = Some id).
Proof.
  apply (reconnect_always_pending demo_offline); [|reflexivity].
  apply demo_reachable. vm_compute. eauto.
Defined.

(** ETH is picked on the connected page, which shows BTC. *)
Lemma symbol_change_subscribes_once_witness :
  exists st',
    step demo_connected (SelectSymbol "ETH") = Some st' /\
    selectedSymbol st' = "ETH" /\
    new_effects demo_connected st' = [SocketSend 0 (subscribe_add_frame "ETH")].
Proof.
  apply (symbol_change_subscribes_once demo_connected 0 "ETH");
    [|reflexivity|reflexivity].
  apply demo_reachable. vm_compute. eauto.
Defined.

(** The keepalive of the socket that was constructed after the unmount. *)
Lemma unmounted_page_only_pings_witness :
  new_effects demo_zombie demo_zombie_pinged = [SocketSend 2 "ping"] /\
  mounted demo_zombie_pinged = false /\
  messages demo_zombie_pinged = messages demo_zombie /\
  isConnected demo_zombie_pinged = isConnected demo_zombie /\
  selectedSymbol demo_zombie_pinged = selectedSymbol demo_zombie /\
  forall h d, In (SocketSend h d) (new_effects demo_zombie demo_zombie_pinged) -> d = "ping".
Proof.
  split; [vm_compute; reflexivity|].
  apply (unmounted_page_only_pings demo_zombie (TimerFired 4) demo_zombie_pinged);
    vm_compute; reflexivity.
Defined.

(** An error event on the connected page. *)
Lemma socket_error_only_logs_witness :
  demo_errored =
  set_trace (trace demo_connected ++ [ConsoleError "WebSocket error:"]) demo_connected.
Proof.
  apply (socket_error_only_logs demo_connected demo_errored 0). vm_compute. reflexivity.
Defined.

(** A click on the US stocks tab of the fallback catalogue. *)
Lemma category_change_selects_first_asset_witness :
  selectedCategory demo_app_stocks = "us_stock" /\
  tickers demo_app_stocks = tickers demo_app /\
  messages (hook demo_app_stocks) = messages (hook demo_app) /\
  match currentAssets demo_app_stocks with
  | x :: _ => selectedSymbol (hook demo_app_stocks) = asset_symbol x
  | [] => hook demo_app_stocks = hook demo_app
  end /\
  currentCurrency demo_app_stocks <> "".
Proof.
  apply (category_change_selects_first_asset "us_stock" demo_app demo_app_stocks).
  vm_compute. reflexivity.
Defined.

(** The same click, seen from the socket. *)
Lemma category_change_subscribes_first_asset_witness :
  exists a',
    handleCategoryChange "us_stock" demo_app = Some a' /\
    selectedSymbol (hook a') = "AAPL" /\
    new_effects (hook demo_app) (hook a') = [SocketSend 0 (subscribe_add_frame "AAPL")].
Proof.
  destruct (category_change_subscribes_first_asset "us_stock" demo_app 0
              {| label := "US Stocks";
                 assets := Some [ {| asset_symbol := "AAPL"; asset_name := "Apple" |};
                                  {| asset_symbol := "GOOGL"; asset_name := "Alphabet" |};
                                  {| asset_symbol := "TSLA"; asset_name := "Tesla" |};
                                  {| asset_symbol := "MSFT"; asset_name := "Microsoft" |};
                                  {| asset_symbol := "AMZN"; asset_name := "Amazon" |};
                                  {| asset_symbol := "NFLX"; asset_name := "Netflix" |} ];
                 category_currency := None |}
              {| asset_symbol := "AAPL"; asset_name := "Apple" |}
              [ {| asset_symbol := "GOOGL"; asset_name := "Alphabet" |};
                {| asset_symbol := "TSLA"; asset_name := "Tesla" |};
                {| asset_symbol := "MSFT"; asset_name := "Microsoft" |};
                {| asset_symbol := "AMZN"; asset_name := "Amazon" |};
                {| asset_symbol := "NFLX"; asset_name := "Netflix" |} ])
    as (a' & Hc & _ & Hs & He);
    [apply demo_reachable; vm_compute; eauto|reflexivity|reflexivity
    |vm_compute; reflexivity|reflexivity|].
  exists a'. by split.
Defined.
